(** * PC-Alerts: league activity listener and card compositor

    A shallow embedding of [listener.py] and
    [image_constructors/add_or_drop.py], and the properties of the
    deduplication ledger, the polling cycle, the layout helpers and the
    card compositor that are stated about them.

    Conventions of the embedding.
    - A Python [str] is a [string]; a character is one code unit of its
      UTF-8 encoding, so [s.encode("utf-8")] is the identity.  [strip] and
      [upper] are modelled on the ASCII range.
    - A Python [float] is a rational number ([Q]) and float arithmetic is
      exact arithmetic on it.
    - The objects of the feed are values of [pyval]: [None], integers,
      strings, lists, tuples, dictionaries and instances with attributes.
    - Module globals, the files the program reads and writes, its standard
      output and the requests it sends make up a [world]; a function with
      effects is a computation in the monad [M], which threads the world
      and may raise.  What a function has changed before it raises stays
      changed.
    - What the outside answers (the feed, the file system, the network,
      the clock, the configuration) is collected in an [env]. *)

From Stdlib Require Import ZArith QArith Qround Qabs Lqa String Ascii List Lia DecimalString.
From stdpp Require Import base gmap strings list.
From Equations Require Import Equations.
Import ListNotations.
Open Scope Z_scope.
Open Scope string_scope.
Set Warnings "-register-all,-clear-no-such-hyp,-level-tolerance".

(** ** Python values, exceptions and strings *)

Module Py.

Inductive exn :=
| ValueError (msg : string)
| RuntimeError (msg : string)
| KeyError (msg : string)
| TypeError (msg : string)
| AttributeError (msg : string)
| IndexError (msg : string)
| ZeroDivisionError
| AssertionError
| OSError (msg : string).

Inductive result (A : Type) :=
| Ok (a : A)
| Raise (e : exn).
Arguments Ok {A} a.
Arguments Raise {A} e.

(** Values of the activity feed: [None], integers, strings, lists, tuples,
    dictionaries with string keys, and instances, which carry the text that
    [str()] gives for them and their attributes. *)
Inductive pyval :=
| PNone
| PInt (z : Z)
| PStr (s : string)
| PList (l : list pyval)
| PTuple (l : list pyval)
| PDict (d : list (string * pyval))
| PObj (text : string) (attrs : list (string * pyval)).

(** Values that [json.load] returns. *)
Inductive json :=
| JNull
| JBool (b : bool)
| JNum (q : Q)
| JStr (s : string)
| JList (l : list json)
| JDict (d : list (string * json)).

Fixpoint assoc {A : Type} (k : string) (d : list (string * A)) : option A :=
  match d with
  | [] => None
  | (k', v) :: d' => if String.eqb k k' then Some v else assoc k d'
  end.

(** [getattr(o, name, default)] *)
Definition getattr (o : pyval) (name : string) (default : pyval) : pyval :=
  match o with
  | PObj _ attrs => match assoc name attrs with Some v => v | None => default end
  | _ => default
  end.

(** Truth value of [v] in a condition. *)
Definition truthy (v : pyval) : bool :=
  match v with
  | PNone => false
  | PInt z => negb (z =? 0)%Z
  | PStr s => negb (String.eqb s "")
  | PList l | PTuple l => match l with [] => false | _ => true end
  | PDict d => match d with [] => false | _ => true end
  | PObj _ _ => true
  end.

(** Truth value of an optional string: [None] and [""] are false. *)
Definition truthy_str (o : option string) : bool :=
  match o with
  | None => false
  | Some s => negb (String.eqb s "")
  end.

Definition str_of_Z (z : Z) : string := NilZero.string_of_int (Z.to_int z).

(** [str(v)]; [repr] is Python's text for a list, a tuple or a
    dictionary. *)
Definition py_str (repr : pyval -> string) (v : pyval) : string :=
  match v with
  | PNone => "None"
  | PInt z => str_of_Z z
  | PStr s => s
  | PObj text _ => text
  | _ => repr v
  end.

Definition is_whitespace (c : ascii) : bool :=
  let n := nat_of_ascii c in
  ((9 <=? n)%nat && (n <=? 13)%nat) || ((28 <=? n)%nat && (n <=? 32)%nat).

Fixpoint lstrip (s : string) : string :=
  match s with
  | String c s' => if is_whitespace c then lstrip s' else s
  | EmptyString => EmptyString
  end.

Fixpoint rstrip (s : string) : string :=
  match s with
  | String c s' =>
      match rstrip s' with
      | EmptyString => if is_whitespace c then EmptyString else String c EmptyString
      | r => String c r
      end
  | EmptyString => EmptyString
  end.

(** [s.strip()] *)
Definition strip (s : string) : string := rstrip (lstrip s).

Definition upper_char (c : ascii) : ascii :=
  let n := nat_of_ascii c in
  if ((97 <=? n)%nat && (n <=? 122)%nat)%bool then ascii_of_nat (n - 32) else c.

(** [s.upper()] *)
Fixpoint upper (s : string) : string :=
  match s with
  | String c s' => String (upper_char c) (upper s')
  | EmptyString => EmptyString
  end.

(** [sub in s] *)
Fixpoint contains (sub s : string) : bool :=
  String.prefix sub s ||
  match s with
  | String _ s' => contains sub s'
  | EmptyString => false
  end.

Definition is_digit (c : ascii) : bool :=
  let n := nat_of_ascii c in ((48 <=? n)%nat && (n <=? 57)%nat)%bool.

Fixpoint all_digits (s : string) : bool :=
  match s with
  | String c s' => is_digit c && all_digits s'
  | EmptyString => true
  end.

(** [s.isdigit()] *)
Definition isdigit (s : string) : bool :=
  negb (String.eqb s "") && all_digits s.

Fixpoint int_of_digits (acc : Z) (s : string) : Z :=
  match s with
  | String c s' => int_of_digits (10 * acc + (Z.of_nat (nat_of_ascii c) - 48)) s'
  | EmptyString => acc
  end.

(** [int(s)] for a string of digits *)
Definition int_of_str (s : string) : Z := int_of_digits 0 s.

(** [sep.join(parts)] *)
Fixpoint join (sep : string) (parts : list string) : string :=
  match parts with
  | [] => ""
  | [p] => p
  | p :: ps => p ++ sep ++ join sep ps
  end.

Fixpoint insert_sorted (x : string) (l : list string) : list string :=
  match l with
  | [] => [x]
  | y :: l' => if String.leb x y then x :: l else y :: insert_sorted x l'
  end.

(** [sorted(l)] on strings: the order of the result does not depend on the
    sorting algorithm, equal strings being indistinguishable. *)
Definition sorted (l : list string) : list string :=
  fold_right insert_sorted [] l.

(** What iterating over [v] yields, or the [TypeError] of a value that is
    not iterable. *)
Definition iterate (v : pyval) : result (list pyval) :=
  match v with
  | PList l | PTuple l => Ok l
  | PStr s => Ok (map (fun c => PStr (String c EmptyString)) (list_ascii_of_string s))
  | PDict d => Ok (map (fun kv => PStr (fst kv)) d)
  | PNone | PInt _ | PObj _ _ => Raise (TypeError "object is not iterable")
  end.

(** [int(x)] for a float [x]: truncation towards zero. *)
Definition int_of_float (x : Q) : Z := Z.quot (Qnum x) (Zpos (Qden x)).

(** [repr(e)] for an exception. *)
Definition repr_exn (e : exn) : string :=
  match e with
  | ValueError msg => "ValueError('" ++ msg ++ "')"
  | RuntimeError msg => "RuntimeError('" ++ msg ++ "')"
  | KeyError msg => "KeyError('" ++ msg ++ "')"
  | TypeError msg => "TypeError('" ++ msg ++ "')"
  | AttributeError msg => "AttributeError('" ++ msg ++ "')"
  | IndexError msg => "IndexError('" ++ msg ++ "')"
  | ZeroDivisionError => "ZeroDivisionError('division by zero')"
  | AssertionError => "AssertionError()"
  | OSError msg => "OSError('" ++ msg ++ "')"
  end.

End Py.
Export Py.

(** ** Data of the program *)

(** A font file loaded at a size ([ImageFont.truetype(path, size)]). *)
Record font := { font_file : string; font_size : Z }.

(** An image read from a file or fetched from a URL.  Pixels are not
    modelled: an image is known by where it came from and by its size. *)
Record bitmap := { bitmap_source : string; bitmap_width : Z; bitmap_height : Z }.

Definition color : Type := Z * Z * Z * Z.

(** What is drawn on the template, in order.  Resampling, alpha compositing
    and the blur of a shadow layer are pixel operations and are left out:
    a card records which layers, at which size, and which text runs were
    put where. *)
Inductive draw_op :=
| Paste (overlay : bitmap) (xy : Z * Z)
| ShadowLayer (xy : Z * Z) (text : string) (f : font) (fill : color) (blur : Z)
| DrawText (xy : Z * Z) (text : string) (f : font) (fill : color).

(** The image object [base] of the compositor. *)
Record card := { card_template : bitmap; card_ops : list draw_op }.

(** A normalized action, the dictionary built by [normalize_actions]. *)
Record transaction := {
  teamName : string;
  ownerId : option string;
  action : string;
  playerName : string;
  playerId : option Z;
  teamLogoUrl : option string;
  playerImageUrl : option string
}.

(** An element of [new_items]: [{"key": key, "actions": [a]}]. *)
Record item := { item_key : string; item_actions : list transaction }.

(** [input_obj], the dictionary sent to Pushcut. *)
Record payload := {
  p_type : string;
  p_text : string;
  p_teamName : string;
  p_teamLogoUrl : option string;
  p_playerName : string;
  p_playerId : option Z;
  p_playerImageUrl : option string;
  p_imageUrl : option string;
  p_rawActions : list transaction
}.

(** The content of [seen_activity.json]: the file is missing; it is there
    but opening it or reading it as JSON raises; or it holds a JSON
    value. *)
Inductive file_state :=
| Missing
| NotJson
| Json (v : json).

(** How writing a file goes: it succeeds, [open] raises and the file is
    left as it was, or the write raises after [open] has truncated it. *)
Inductive write_outcome := WriteOk | OpenFails | DumpFails.

(** Input and output on the file system and the network, as it happens. *)
Inductive io_event :=
| OpenImage (path : string)
| HttpGet (url : string)
| SaveImage (path : string)
| CopyFile (src dst : string)
| WriteFile (path : string)
| ReadFile (path : string)
| FeedRequest (size : Z)
| HttpPost (url : string) (title text : string) (input : payload).

(** ** The environment *)

Record env := {
  (* the Python runtime and its libraries *)
  repr : pyval -> string;
  json_str : json -> string;
  sha1_hexdigest : string -> string;
  time_time : Q;
  cwd : string;
  (* configuration *)
  PUBLIC_BASE_URL : option string;
  PUSHCUT_URL : option string;
  ESPN_S2 : option string;
  ESPN_SWID : option string;
  owner_id_to_name : gmap string string;
  (* fonts and text measurement *)
  truetype_loads : string -> Z -> bool;
  textlength : string -> font -> Q;
  (* assets *)
  image_open : string -> result bitmap;
  requests_get : string -> result bitmap;
  image_save_fails : bool;
  (* files *)
  copyfile_fails : string -> bool;
  seen_state_write : write_outcome;
  (* the feed and the delivery endpoint *)
  league_connect : result unit;
  recent_activity : Z -> result (list pyval);
  requests_post : payload -> result (Z * string)
}.

(** ** The world and the monad of effects *)

Record world := {
  seen_keys : gset string;
  league : bool;
  last_poll_ts : option Q;
  last_new_events : list item;
  seen_state_file : file_state;
  out_add_png : option card;
  cards_dir : gmap string card;
  stdout : list string;
  io_trace : list io_event
}.

Definition set_seen_keys (s : gset string) (w : world) : world :=
  {| seen_keys := s; league := league w; last_poll_ts := last_poll_ts w;
     last_new_events := last_new_events w; seen_state_file := seen_state_file w;
     out_add_png := out_add_png w; cards_dir := cards_dir w;
     stdout := stdout w; io_trace := io_trace w |}.

Definition set_league (b : bool) (w : world) : world :=
  {| seen_keys := seen_keys w; league := b; last_poll_ts := last_poll_ts w;
     last_new_events := last_new_events w; seen_state_file := seen_state_file w;
     out_add_png := out_add_png w; cards_dir := cards_dir w;
     stdout := stdout w; io_trace := io_trace w |}.

Definition set_last_poll_ts (t : Q) (w : world) : world :=
  {| seen_keys := seen_keys w; league := league w; last_poll_ts := Some t;
     last_new_events := last_new_events w; seen_state_file := seen_state_file w;
     out_add_png := out_add_png w; cards_dir := cards_dir w;
     stdout := stdout w; io_trace := io_trace w |}.

Definition set_last_new_events (l : list item) (w : world) : world :=
  {| seen_keys := seen_keys w; league := league w; last_poll_ts := last_poll_ts w;
     last_new_events := l; seen_state_file := seen_state_file w;
     out_add_png := out_add_png w; cards_dir := cards_dir w;
     stdout := stdout w; io_trace := io_trace w |}.

Definition set_seen_state_file (f : file_state) (w : world) : world :=
  {| seen_keys := seen_keys w; league := league w; last_poll_ts := last_poll_ts w;
     last_new_events := last_new_events w; seen_state_file := f;
     out_add_png := out_add_png w; cards_dir := cards_dir w;
     stdout := stdout w; io_trace := io_trace w |}.

Definition set_out_add_png (c : option card) (w : world) : world :=
  {| seen_keys := seen_keys w; league := league w; last_poll_ts := last_poll_ts w;
     last_new_events := last_new_events w; seen_state_file := seen_state_file w;
     out_add_png := c; cards_dir := cards_dir w;
     stdout := stdout w; io_trace := io_trace w |}.

Definition set_cards_dir (d : gmap string card) (w : world) : world :=
  {| seen_keys := seen_keys w; league := league w; last_poll_ts := last_poll_ts w;
     last_new_events := last_new_events w; seen_state_file := seen_state_file w;
     out_add_png := out_add_png w; cards_dir := d;
     stdout := stdout w; io_trace := io_trace w |}.

Definition add_stdout (line : string) (w : world) : world :=
  {| seen_keys := seen_keys w; league := league w; last_poll_ts := last_poll_ts w;
     last_new_events := last_new_events w; seen_state_file := seen_state_file w;
     out_add_png := out_add_png w; cards_dir := cards_dir w;
     stdout := (stdout w ++ [line])%list; io_trace := io_trace w |}.

Definition add_io (e : io_event) (w : world) : world :=
  {| seen_keys := seen_keys w; league := league w; last_poll_ts := last_poll_ts w;
     last_new_events := last_new_events w; seen_state_file := seen_state_file w;
     out_add_png := out_add_png w; cards_dir := cards_dir w;
     stdout := stdout w; io_trace := (io_trace w ++ [e])%list |}.

Definition M (A : Type) : Type := world -> result A * world.

Definition ret {A : Type} (a : A) : M A := fun w => (Ok a, w).

Definition bind {A B : Type} (c : M A) (k : A -> M B) : M B :=
  fun w => match c w with
           | (Ok a, w') => k a w'
           | (Raise e, w') => (Raise e, w')
           end.

Definition raise {A : Type} (e : exn) : M A := fun w => (Raise e, w).

(** [try: c  except Exception as e: handler(e)] *)
Definition try_except {A : Type} (c : M A) (handler : exn -> M A) : M A :=
  fun w => match c w with
           | (Ok a, w') => (Ok a, w')
           | (Raise e, w') => handler e w'
           end.

Definition get : M world := fun w => (Ok w, w).

Definition modify (f : world -> world) : M unit := fun w => (Ok tt, f w).

Definition lift {A : Type} (r : result A) : M A := fun w => (r, w).

Definition print (line : string) : M unit := modify (add_stdout line).

Definition io (e : io_event) : M unit := modify (add_io e).

Declare Scope monad_scope.
Delimit Scope monad_scope with monad.
Notation "x <- c ;; k" := (bind c (fun x => k))
  (at level 100, c at next level, right associativity) : monad_scope.
Notation "c ;; k" := (bind c (fun _ => k))
  (at level 100, right associativity) : monad_scope.
Open Scope monad_scope.

(** [for x in l: body(x)] *)
Fixpoint for_each {A : Type} (body : A -> M unit) (l : list A) : M unit :=
  match l with
  | [] => ret tt
  | x :: l' => body x ;; for_each body l'
  end.

Definition nl : string := String (ascii_of_nat 10) EmptyString.

(** ** image_constructors/add_or_drop.py *)

Module AddOrDrop.

Definition OUTPUT_PATH : string := "out_add.png".
Definition TEMPLATE_PATH : string := "../templates/template_add_or_drop.png".

Definition PLAYER_POS : Q * Q := (0, 1564 # 10)%Q.
Definition CAPTION1_POS : Q * Q := (5731 # 10, 3366 # 10)%Q.
Definition CAPTION2_POS : Q * Q := (5467 # 10, 3991 # 10)%Q.
Definition OWNER_POS : Q * Q := (5655 # 10, 282 # 10)%Q.

Definition FONT_PATH_ITALIC : string := "/System/Library/Fonts/Supplemental/Arial.ttf".
Definition FONT_PATH_BOLD : string := "/System/Library/Fonts/Supplemental/Arial Bold.ttf".

Definition CAPTION1_SIZE : Z := 24.
Definition CAPTION2_SIZE : Z := 35.

Definition CAPTION_LEFT_X : Q := (5094 # 10)%Q.
Definition CAPTION_RIGHT_X : Q := 766%Q.

Definition WHITE : color := (255, 255, 255, 255).
Definition GREEN : color := (90, 255, 80, 255).
Definition SHADOW : color := (0, 0, 0, 160).
Definition RED : color := (235, 72, 72, 255).

Definition TEXT_SHADOW_OFFSET : Z * Z := (3, 3).
Definition TEXT_SHADOW_BLUR : Z := 2.

(** [round(x)]: to the nearest integer, a tie going to the even one. *)
Definition py_round (x : Q) : Z :=
  let f := Qfloor x in
  match (x - inject_Z f ?= 1 # 2)%Q with
  | Lt => f
  | Gt => f + 1
  | Eq => if Z.even f then f else f + 1
  end.

Definition ixy (pos : Q * Q) : Z * Z := (py_round (fst pos), py_round (snd pos)).

(** [ImageFont.truetype(p, size=size)] *)
Definition truetype (E : env) (p : string) (size : Z) : result font :=
  if truetype_loads E p size then Ok {| font_file := p; font_size := size |}
  else Raise (OSError "cannot open resource").

Fixpoint load_font_candidates (E : env) (candidates : list string) (size : Z)
  : result font :=
  match candidates with
  | [] => Raise (RuntimeError "Could not load a scalable .ttf font. Set FONT_PATH_ITALIC / FONT_PATH_BOLD to a real .ttf file in your project.")
  | p :: rest =>
      match truetype E p size with
      | Ok f => Ok f
      | Raise _ => load_font_candidates E rest size
      end
  end.

Definition load_font (E : env) (font_path : option string) (size : Z) : result font :=
  let candidates := if truthy_str font_path then [default "" font_path] else [] in
  let candidates := (candidates ++
    [ "/System/Library/Fonts/Supplemental/Arial.ttf";
      "/System/Library/Fonts/Supplemental/Arial Bold.ttf";
      "/Library/Fonts/Arial.ttf" ])%list in
  load_font_candidates E candidates size.

(** The loop of [fit_font_to_width], from the current [size]. *)
Equations? fit_font_loop (E : env) (text : string) (font_path : option string)
  (max_width : Q) (size : Z) : result font by wf (Z.to_nat (size - 8)) lt :=
  fit_font_loop E text font_path max_width size with Z_gt_dec size 8 => {
    | left _ with load_font E font_path size => {
        | Raise e => Raise e
        | Ok f =>
            if Qle_bool (textlength E text f) max_width then Ok f
            else fit_font_loop E text font_path max_width (size - 1) }
    | right _ => load_font E font_path 8 }.
Proof. lia. Qed.

Definition fit_font_to_width (E : env) (text : string) (font_path : option string)
  (start_size : Z) (max_width : Q) : result font :=
  fit_font_loop E text font_path max_width start_size.

Definition centered_x_for_text (E : env) (text : string) (f : font)
  (left_x right_x : Q) : Z :=
  let region_w := (right_x - left_x)%Q in
  let text_w := textlength E text f in
  let x := (left_x + (region_w - text_w) / 2)%Q in
  py_round x.

(** [img.resize((nw, nh), Image.Resampling.LANCZOS)] *)
Definition resize (img : bitmap) (nw nh : Z) : bitmap :=
  {| bitmap_source := bitmap_source img; bitmap_width := nw; bitmap_height := nh |}.

Definition downscale_to_fit (img : bitmap) (max_w max_h : Z) : result bitmap :=
  let w := bitmap_width img in
  let h := bitmap_height img in
  if (w <=? max_w)%Z && (h <=? max_h)%Z then Ok img
  else if (w =? 0)%Z || (h =? 0)%Z then Raise ZeroDivisionError
  else
    let a := (inject_Z max_w / inject_Z w)%Q in
    let b := (inject_Z max_h / inject_Z h)%Q in
    let scale := if Qle_bool b a then b else a in
    let nw := Z.max 1 (int_of_float (inject_Z w * scale)) in
    let nh := Z.max 1 (int_of_float (inject_Z h * scale)) in
    Ok (resize img nw nh).

Definition paste_rgba (base : card) (overlay : bitmap) (xy : Z * Z) : card :=
  {| card_template := card_template base;
     card_ops := (card_ops base ++ [Paste overlay xy])%list |}.

Definition draw_text_shadowed (base : card) (xy : Z * Z) (text : string)
  (f : font) (fill : color) : card :=
  let sx := fst xy + fst TEXT_SHADOW_OFFSET in
  let sy := snd xy + snd TEXT_SHADOW_OFFSET in
  {| card_template := card_template base;
     card_ops := (card_ops base ++
       [ ShadowLayer (sx, sy) text f SHADOW TEXT_SHADOW_BLUR;
         DrawText xy text f fill ])%list |}.

(** [Image.open(path).convert("RGBA")] *)
Definition open_image (E : env) (path : string) : M bitmap :=
  io (OpenImage path) ;; lift (image_open E path).

Definition fetch_image (E : env) (url : string) : M bitmap :=
  io (HttpGet url) ;; lift (requests_get E url).

(** [base.save(OUTPUT_PATH)] *)
Definition save_output (E : env) (base : card) : M unit :=
  io (SaveImage OUTPUT_PATH) ;;
  if image_save_fails E then raise (OSError "cannot write file")
  else modify (set_out_add_png (Some base)).

Definition construct_image_adds_or_drops (E : env)
  (player_name player_img_url owner_nickname transaction_type : option string)
  : M card :=
  if negb (truthy_str player_name) || negb (truthy_str owner_nickname)
     || negb (truthy_str transaction_type)
  then raise (ValueError "Invalid parameters: missing text fields")
  else if negb (truthy_str player_img_url)
  then raise (ValueError "Invalid parameters: missing image urls")
  else
    let player_name := default "" player_name in
    let player_img_url := default "" player_img_url in
    let owner_nickname := default "" owner_nickname in
    let transaction_type := default "" transaction_type in
    let t := upper (strip transaction_type) in
    verb_and_color <-
      (if String.eqb t "ADD" || String.eqb t "ADDED" then ret (" ADDS", GREEN)
       else if String.eqb t "DROP" || String.eqb t "DROPPED" then ret (" DROPS", RED)
       else raise (ValueError ("Unknown transaction_type: " ++ transaction_type))) ;;
    let verb := fst verb_and_color in
    let verb_color := snd verb_and_color in
    let OWNER_IMAGE_PATH := "../owner_imgs/" ++ owner_nickname ++ ".jpeg" in
    template <- open_image E TEMPLATE_PATH ;;
    let base := {| card_template := template; card_ops := [] |} in
    let W := bitmap_width template in
    let H := bitmap_height template in
    player_img <- fetch_image E player_img_url ;;
    owner_img <- open_image E OWNER_IMAGE_PATH ;;
    let '(px, py) := ixy PLAYER_POS in
    player_img <- lift (downscale_to_fit player_img (W - px) (H - py)) ;;
    let base := paste_rgba base player_img (px, py) in
    let '(ox, oy) := ixy OWNER_POS in
    owner_img <- lift (downscale_to_fit owner_img (W - ox) (H - oy)) ;;
    let base := paste_rgba base owner_img (ox, oy) in
    _ <- lift (load_font E (Some FONT_PATH_ITALIC) CAPTION1_SIZE) ;;
    _ <- lift (load_font E (Some FONT_PATH_BOLD) CAPTION2_SIZE) ;;
    let left_x := CAPTION_LEFT_X in
    let right_x := CAPTION_RIGHT_X in
    let max_w := (right_x - left_x)%Q in
    let c1y := snd (ixy CAPTION1_POS) in
    let team_part := owner_nickname in
    let verb_part := verb in
    let full_line1 := team_part ++ verb_part in
    f1 <- lift (fit_font_to_width E full_line1 (Some FONT_PATH_ITALIC) CAPTION1_SIZE max_w) ;;
    let line1_x := centered_x_for_text E full_line1 f1 left_x right_x in
    let base := draw_text_shadowed base (line1_x, c1y) team_part f1 WHITE in
    let team_w := textlength E team_part f1 in
    let verb_x := py_round (inject_Z line1_x + team_w) in
    let base := draw_text_shadowed base (verb_x, c1y) verb_part f1 verb_color in
    let c2y := snd (ixy CAPTION2_POS) in
    f2 <- lift (fit_font_to_width E player_name (Some FONT_PATH_BOLD) CAPTION2_SIZE max_w) ;;
    let line2_x := centered_x_for_text E player_name f2 left_x right_x in
    let base := draw_text_shadowed base (line2_x, c2y) player_name f2 WHITE in
    save_output E base ;;
    print ("✅ wrote: " ++ cwd E ++ "/" ++ OUTPUT_PATH ++ "  (template size: "
           ++ str_of_Z W ++ "x" ++ str_of_Z H ++ ")") ;;
    ret base.

End AddOrDrop.
Export AddOrDrop.

(** ** listener.py *)

Module Listener.

Definition LATEST_CARD_PATH : string := "out_add.png".
Definition SEEN_STATE_FILE : string := "seen_activity.json".
Definition ONLY_ACTIONS : list string := ["ADDED"; "DROPPED"].
Definition PUSHCUT_TITLE_DEFAULT : string := "Fantasy".
Definition PUSHCUT_TEXT_DEFAULT : string := "New ESPN activity".
Definition CARDS_DIR : string := "cards".

(** The module as it is after import: nothing seen, no league, and the
    files that are on disk. *)
Definition initial_world (ledger : file_state) (latest : option card)
  (cards : gmap string card) : world :=
  {| seen_keys := ∅; league := false; last_poll_ts := None;
     last_new_events := []; seen_state_file := ledger;
     out_add_png := latest; cards_dir := cards;
     stdout := []; io_trace := [] |}.

(** *** Persistence *)

(** [json.load(f)] on the opened file. *)
Definition json_load (f : file_state) : result json :=
  match f with
  | Json v => Ok v
  | NotJson => Raise (ValueError "Expecting value")
  | Missing => Raise (OSError "No such file or directory")
  end.

(** [data.get(key, default)] *)
Definition json_get (data : json) (key : string) (default : json) : result json :=
  match data with
  | JDict d => Ok (match assoc key d with Some v => v | None => default end)
  | _ => Raise (AttributeError "object has no attribute 'get'")
  end.

(** [str(k)] for a value read from the file. *)
Definition str_of_json (E : env) (k : json) : string :=
  match k with
  | JStr s => s
  | _ => json_str E k
  end.

Definition load_seen_state (E : env) : M unit :=
  w <- get ;;
  match seen_state_file w with
  | Missing => ret tt
  | _ =>
      try_except
        (io (ReadFile SEEN_STATE_FILE) ;;
         data <- lift (json_load (seen_state_file w)) ;;
         keys <- lift (json_get data "seen_keys" (JList [])) ;;
         match keys with
         | JList l => modify (set_seen_keys (list_to_set (map (str_of_json E) l)))
         | _ => ret tt
         end)
        (fun _ => ret tt)
  end.

(** What [json.dump] writes for the ledger. *)
Definition seen_state_json (E : env) (seen : gset string) : json :=
  JDict [ ("seen_keys", JList (map JStr (sorted (elements seen))));
          ("updated_at", JNum (time_time E)) ].

Definition save_seen_state (E : env) : M unit :=
  try_except
    (w <- get ;;
     io (WriteFile SEEN_STATE_FILE) ;;
     match seen_state_write E with
     | OpenFails => raise (OSError "cannot open file")
     | DumpFails => modify (set_seen_state_file NotJson) ;;
                    raise (OSError "cannot write file")
     | WriteOk => modify (set_seen_state_file (Json (seen_state_json E (seen_keys w))))
     end)
    (fun _ => ret tt).

(** *** ESPN setup and normalization *)

Definition init_league (E : env) : M unit :=
  if negb (truthy_str (ESPN_S2 E)) || negb (truthy_str (ESPN_SWID E))
  then raise (RuntimeError "Missing ESPN_S2 / ESPN_SWID env vars. recent_activity() needs cookies.")
  else lift (league_connect E).

Definition normalize_action (E : env) (action_raw : pyval) : string :=
  let a := upper (strip (py_str (repr E) action_raw)) in
  if contains "ADDED" a then "ADDED"
  else if contains "DROPPED" a then "DROPPED"
  else if contains "TRADED" a then "TRADED"
  else a.

Definition get_team_name (E : env) (team_obj : pyval) : string :=
  let name := getattr team_obj "team_name" PNone in
  if truthy name then py_str (repr E) name
  else "Team " ++ py_str (repr E) (getattr team_obj "team_id" (PStr "?")).

(** [val] when it is a string that starts with ["http"]. *)
Definition http_url (val : pyval) : option string :=
  match val with
  | PStr v => if String.prefix "http" v then Some v else None
  | _ => None
  end.

Fixpoint first_http_url (vals : list pyval) : option string :=
  match vals with
  | [] => None
  | v :: rest =>
      match http_url v with
      | Some u => Some u
      | None => first_http_url rest
      end
  end.

Definition get_team_logo_url (team_obj : pyval) : option string :=
  match first_http_url
          (map (fun attr => getattr team_obj attr PNone)
               ["logo_url"; "logoUrl"; "logo"; "team_logo"; "teamLogo"]) with
  | Some val => Some val
  | None =>
      first_http_url
        (concat
           (map (fun attr =>
                   match getattr team_obj attr PNone with
                   | PDict d =>
                       map (fun key => match assoc key d with
                                       | Some v => v
                                       | None => PNone
                                       end)
                           ["logo"; "logoUrl"; "logo_url"]
                   | _ => []
                   end)
                ["data"; "raw"; "_team"; "_raw"]))
  end.

Fixpoint first_player_id (vals : list pyval) : option Z :=
  match vals with
  | [] => None
  | PInt v :: _ => Some v
  | PStr v :: rest => if isdigit v then Some (int_of_str v) else first_player_id rest
  | _ :: rest => first_player_id rest
  end.

Definition get_player_name_and_id (E : env) (player_raw : pyval) : string * option Z :=
  let name :=
    let n := getattr player_raw "name" PNone in
    if truthy n then n else getattr player_raw "fullName" PNone in
  let name := if negb (truthy name) then PStr (py_str (repr E) player_raw) else name in
  let pid :=
    first_player_id
      (map (fun attr => getattr player_raw attr PNone) ["playerId"; "player_id"; "id"]) in
  (py_str (repr E) name, pid).

Definition get_owner_id (team_obj : pyval) : option string :=
  match getattr team_obj "owners" PNone with
  | PList (PDict d :: _) =>
      match assoc "id" d with
      | Some (PStr oid) => Some oid
      | _ => None
      end
  | _ => None
  end.

Definition player_headshot_url (player_id : option Z) : option string :=
  match player_id with
  | None => None
  | Some pid =>
      if (pid =? 0)%Z || (pid <=? 0)%Z then None
      else Some ("https://a.espncdn.com/i/headshots/nfl/players/full/"
                 ++ str_of_Z pid ++ ".png")
  end.

Definition in_list (x : string) (l : list string) : bool :=
  existsb (String.eqb x) l.

(** The body of the loop of [normalize_actions]: what one entry appends to
    [out], if anything. *)
Definition normalize_entry (E : env) (entry : pyval) : option transaction :=
  match entry with
  | PTuple (team_obj :: action_raw :: player_raw :: _)
  | PList (team_obj :: action_raw :: player_raw :: _) =>
      let action := normalize_action E action_raw in
      if negb (in_list action ONLY_ACTIONS) then None
      else
        let team_name := get_team_name E team_obj in
        let team_logo := get_team_logo_url team_obj in
        let owner_id := get_owner_id team_obj in
        let '(p_name, p_id) := get_player_name_and_id E player_raw in
        let p_img := player_headshot_url p_id in
        Some {| teamName := team_name; ownerId := owner_id; action := action;
                playerName := p_name; playerId := p_id;
                teamLogoUrl := team_logo; playerImageUrl := p_img |}
  | _ => None
  end.

Definition normalize_actions (E : env) (activity : pyval) : result (list transaction) :=
  let actions := getattr activity "actions" (PList []) in
  let actions := if truthy actions then actions else PList [] in
  match iterate actions with
  | Raise e => Raise e
  | Ok entries => Ok (omap (normalize_entry E) entries)
  end.

(** *** Dedupe and formatting *)

Definition event_key_part (a : transaction) : string :=
  teamName a ++ "|" ++ action a ++ "|" ++ playerName a ++ "|"
  ++ match playerId a with Some pid => str_of_Z pid | None => "None" end.

Definition make_event_key (actions : list transaction) : string :=
  join " || " (sorted (map event_key_part actions)).

Definition format_add_message (actions : list transaction) : string :=
  join nl ("➕ ADD" ::
           map (fun a => "✅ " ++ teamName a ++ " added: " ++ playerName a) actions).

(** *** Pushcut *)

Definition send_to_pushcut (E : env) (input_obj : payload) : M unit :=
  if negb (truthy_str (PUSHCUT_URL E))
  then print "[pushcut] PUSHCUT_URL not set; skipping pushcut send."
  else
    try_except
      (io (HttpPost (default "" (PUSHCUT_URL E))
             PUSHCUT_TITLE_DEFAULT PUSHCUT_TEXT_DEFAULT input_obj) ;;
       resp <- lift (requests_post E input_obj) ;;
       if (fst resp >=? 400)%Z
       then print ("[pushcut] HTTP " ++ str_of_Z (fst resp) ++ ": "
                   ++ substring 0 250 (snd resp))
       else ret tt)
      (fun e => print ("[pushcut] error: " ++ repr_exn e)).

(** *** Polling *)

(** The inner loop of [poll_once], over the actions of one activity. *)
Fixpoint poll_actions (actions : list transaction) (new_items : list item)
  : M (list item) :=
  match actions with
  | [] => ret new_items
  | a :: rest =>
      let key := make_event_key [a] in
      w <- get ;;
      if bool_decide (key ∈ seen_keys w) then poll_actions rest new_items
      else
        modify (set_seen_keys ({[ key ]} ∪ seen_keys w)) ;;
        poll_actions rest
          (new_items ++ [ {| item_key := key; item_actions := [a] |} ])%list
  end.

(** The outer loop of [poll_once], over the activities. *)
Fixpoint poll_activities (E : env) (activities : list pyval) (new_items : list item)
  : M (list item) :=
  match activities with
  | [] => ret new_items
  | activity :: rest =>
      actions <- lift (normalize_actions E activity) ;;
      match actions with
      | [] => poll_activities E rest new_items
      | _ =>
          new_items <- poll_actions actions new_items ;;
          poll_activities E rest new_items
      end
  end.

Definition poll_once (E : env) (size : Z) : M (list item) :=
  w <- get ;;
  if negb (league w) then raise AssertionError
  else
    io (FeedRequest size) ;;
    activities <- lift (recent_activity E size) ;;
    new_items <- poll_activities E activities [] ;;
    match new_items with
    | [] => ret tt
    | _ => save_seen_state E
    end ;;
    ret new_items.

(** The locals [card_id], [card_path], [img_url] and [input_obj] of the
    body of [for item in new_items] in [loop]. *)
Definition card_id (E : env) (it : item) : string :=
  substring 0 12 (sha1_hexdigest E (item_key it)).

Definition card_path (E : env) (it : item) : string :=
  CARDS_DIR ++ "/" ++ card_id E it ++ ".png".

Definition img_url (E : env) (it : item) : string :=
  default "" (PUBLIC_BASE_URL E) ++ "/cards/" ++ card_id E it
  ++ ".png?ts=" ++ str_of_Z (int_of_float (time_time E)).

Definition input_obj (E : env) (it : item) (transaction : transaction) : payload :=
  {| p_type := "ADD";
     p_text := format_add_message (item_actions it);
     p_teamName := teamName transaction;
     p_teamLogoUrl := teamLogoUrl transaction;
     p_playerName := playerName transaction;
     p_playerId := playerId transaction;
     p_playerImageUrl := playerImageUrl transaction;
     p_imageUrl := Some (img_url E it);
     p_rawActions := item_actions it |}.

(** The body of [for item in new_items] in [loop]. *)
Definition loop_item (E : env) (it : item) : M unit :=
  let msg := format_add_message (item_actions it) in
  print (nl ++ msg ++ nl) ;;
  transaction <-
    match item_actions it with
    | a :: _ => ret a
    | [] => raise (IndexError "list index out of range")
    end ;;
  w <- get ;;
  match out_add_png w with
  | Some latest =>
      io (CopyFile LATEST_CARD_PATH (card_path E it)) ;;
      if copyfile_fails E (card_path E it) then raise (OSError "cannot copy file")
      else modify (set_cards_dir (<[ card_id E it := latest ]> (cards_dir w)))
  | None => ret tt
  end ;;
  _ <-
    (if String.eqb (action transaction) "ADD" || String.eqb (action transaction) "DROP"
     then
       owner_nickname <-
         match ownerId transaction with
         | Some oid =>
             match owner_id_to_name E !! oid with
             | Some n => ret n
             | None => raise (KeyError oid)
             end
         | None => raise (KeyError "None")
         end ;;
       img <- construct_image_adds_or_drops E (Some (playerName transaction))
                (playerImageUrl transaction) (Some owner_nickname)
                (Some (action transaction)) ;;
       ret (Some img)
     else ret None) ;;
  if truthy_str (PUBLIC_BASE_URL E) then send_to_pushcut E (input_obj E it transaction)
  else ret tt.

(** One turn of [while True] in [loop], up to the sleep. *)
Definition loop_cycle (E : env) : M unit :=
  try_except
    (modify (set_last_poll_ts (time_time E)) ;;
     new_items <- poll_once E 50 ;;
     match new_items with
     | [] => ret tt
     | _ => modify (set_last_new_events new_items)
     end ;;
     for_each (loop_item E) new_items)
    (fun e => print ("[poll error] " ++ repr_exn e)).

(** [loop], for as many turns as there are environments: the turn [i]
    meets the outside as [Es !! i] describes it. *)
Fixpoint loop (Es : list env) : M unit :=
  match Es with
  | [] => ret tt
  | E :: rest => loop_cycle E ;; loop rest
  end.

(** [on_startup], up to the creation of the task that runs [loop]. *)
Definition on_startup (E : env) : M unit :=
  load_seen_state E ;;
  init_league E ;;
  modify (set_league true) ;;
  _ <- poll_once E 50 ;;
  modify (set_last_new_events []) ;;
  modify (set_last_poll_ts (time_time E)).

End Listener.
Export Listener.

(** ** Vocabulary of the statements *)

(** *** Layout *)

(** The text, in the font loaded at size [s], is at most [maxw] wide. *)
Definition fits_at (E : env) (text : string) (path : option string) (maxw : Q) (s : Z) : Prop :=
  exists f, load_font E path s = Ok f /\ (textlength E text f <= maxw)%Q.


(** *** The compositor *)





(** *** What a trace shows *)

(** The delivery attempts: the payloads of the requests posted to Pushcut. *)
Definition posts (trace : list io_event) : list payload :=
  omap (fun ev => match ev with HttpPost _ _ _ p => Some p | _ => None end) trace.

(** The input and output of the compositor: it opens the template and the
    owner image, fetches the player image and saves the card. *)
Definition is_asset_io (ev : io_event) : bool :=
  match ev with
  | OpenImage _ | HttpGet _ | SaveImage _ => true
  | _ => false
  end.

Definition renders (trace : list io_event) : list io_event := List.filter is_asset_io trace.

(** The key that a delivery is for. *)
Definition payload_key (p : payload) : string := make_event_key (p_rawActions p).

(** *** Polling *)

Definition key_of (a : transaction) : string := make_event_key [a].

(** The item that [poll_once] appends for a new action. *)
Definition new_item (a : transaction) : item :=
  {| item_key := make_event_key [a]; item_actions := [a] |}.

(** The items that [poll_once] builds from the feed: one action, its key,
    and an action that [normalize_actions] keeps. *)
Definition feed_item (it : item) : Prop :=
  exists a, it = {| item_key := make_event_key [a]; item_actions := [a] |}
            /\ in_list (action a) ONLY_ACTIONS = true.

(** The window that the feed returns, empty when the request raises. *)
Definition window (E : env) (size : Z) : list pyval :=
  match recent_activity E size with
  | Ok activities => activities
  | Raise _ => []
  end.

(** The keys of the transactions of a window, up to the first activity
    whose normalization raises. *)
Fixpoint window_keys (E : env) (activities : list pyval) : gset string :=
  match activities with
  | [] => ∅
  | activity :: rest =>
      match normalize_actions E activity with
      | Ok actions => list_to_set (key_of <$> actions) ∪ window_keys E rest
      | Raise _ => ∅
      end
  end.

(** The items that a sequence of polls reports as new, one poll for each
    environment; a poll that raises reports none. *)
Fixpoint poll_cycles (Es : list env) (w : world) : list item :=
  match Es with
  | [] => []
  | E :: rest =>
      let '(r, w') := poll_once E 50 w in
      (match r with Ok items => items | Raise _ => [] end ++ poll_cycles rest w')%list
  end.

(** A ledger file from which [load_seen_state] reads a set of keys. *)
Definition well_formed_ledger (f : file_state) : bool :=
  match f with
  | Json (JDict d) =>
      match assoc "seen_keys" d with
      | Some (JList _) => true
      | _ => false
      end
  | _ => false
  end.

(** What polling leaves alone. *)
Definition quiet (w w' : world) : Prop :=
  league w' = league w /\ out_add_png w' = out_add_png w /\
  cards_dir w' = cards_dir w /\ stdout w' = stdout w /\
  last_new_events w' = last_new_events w /\
  posts (io_trace w') = posts (io_trace w) /\
  renders (io_trace w') = renders (io_trace w).

(** *** A cycle *)

(** The items that the poll of a cycle returns. *)
Definition cycle_items (E : env) (w : world) : list item :=
  match poll_once E 50 (set_last_poll_ts (time_time E) w) with
  | (Ok items, _) => items
  | (Raise _, _) => []
  end.

(** Processing the item raises: [out_add.png] is there and the copy to
    the card of the item fails. *)
Definition fails (E : env) (latest : option card) (it : item) : bool :=
  match latest with
  | Some _ => copyfile_fails E (card_path E it)
  | None => false
  end.

(** The items before the first one whose processing raises. *)
Fixpoint before_failure (E : env) (latest : option card) (items : list item) : list item :=
  match items with
  | [] => []
  | it :: rest => if fails E latest it then [] else it :: before_failure E latest rest
  end.

Definition all_copied (E : env) (latest : option card) (items : list item) : bool :=
  forallb (fun it => negb (fails E latest it)) items.

(** The card directory after the copy for an item. *)
Definition copied (E : env) (w : world) (it : item) : gmap string card :=
  match out_add_png w with
  | Some latest =>
      if copyfile_fails E (card_path E it) then cards_dir w
      else <[ card_id E it := latest ]> (cards_dir w)
  | None => cards_dir w
  end.

(** Both URLs that a delivery needs are set. *)
Definition configured (E : env) : bool :=
  truthy_str (PUBLIC_BASE_URL E) && truthy_str (PUSHCUT_URL E).

(** The payloads that the loop builds for the items. *)
Definition payloads (E : env) (items : list item) : list payload :=
  omap (fun it => input_obj E it <$> head (item_actions it)) items.

(** The deliveries that a cycle attempts. *)
Definition delivered (E : env) (w : world) : list payload :=
  if configured E
  then payloads E (before_failure E (out_add_png w) (cycle_items E w))
  else [].

(** What the processing of an item leaves alone. *)
Definition frame (w w' : world) : Prop :=
  seen_keys w' = seen_keys w /\ league w' = league w /\
  seen_state_file w' = seen_state_file w /\ out_add_png w' = out_add_png w.


(** The claim of C4 as it is written: after two cycles on the same window,
    there is one card more and one delivery attempt more than before. *)
Definition twice_yields_one (E : env) (w : world) : Prop :=
  size (cards_dir (snd (loop [E; E] w))) = S (size (cards_dir w)) /\
  length (posts (io_trace (snd (loop [E; E] w)))) = S (length (posts (io_trace w))).

(** ** Sample environments *)

Module Sample.

Definition team : pyval :=
  PObj "Team(moja)"
    [ ("team_name", PStr "moja");
      ("team_id", PInt 3);
      ("logo_url", PStr "https://g.espncdn.com/lm-static/logo.png");
      ("owners", PList [PDict [("id", PStr "{OWNER-1}")]]) ].

Definition bucky : pyval :=
  PObj "Player(Bucky Irving)" [ ("name", PStr "Bucky Irving"); ("playerId", PInt 2577417) ].

Definition kicker : pyval :=
  PObj "Player(Chase McLaughlin)" [ ("name", PStr "Chase McLaughlin"); ("playerId", PInt 3150744) ].

(** One activity: a swap, an add bundled with a drop. *)
Definition swap : pyval :=
  PObj "Activity"
    [ ("actions", PList [ PTuple [team; PStr "FA ADDED"; bucky];
                          PTuple [team; PStr "DROPPED"; kicker] ]) ].

Definition add_only : pyval :=
  PObj "Activity" [ ("actions", PList [ PTuple [team; PStr "FA ADDED"; bucky] ]) ].

Definition hex_digit (n : nat) : ascii :=
  ascii_of_nat (if (n <? 10)%nat then 48 + n else 87 + n).

(** A stand-in for the SHA-1 digest: the bytes of the key in hexadecimal. *)
Fixpoint hexdigest (key : string) : string :=
  match key with
  | String c rest =>
      let n := nat_of_ascii c in
      String (hex_digit (n / 16)) (String (hex_digit (n mod 16)) (hexdigest rest))
  | EmptyString => EmptyString
  end.

(** Half the font size for each character. *)
Definition measure (text : string) (f : font) : Q :=
  inject_Z (Z.of_nat (String.length text) * font_size f) / 2.

(** An environment in which everything outside works, but for what the
    arguments say: the public base URL, the copies that fail, and the
    window that the feed returns. *)
Definition environment (base_url : option string) (copy_fails : string -> bool)
  (window : list pyval) : env :=
  {| repr := fun _ => "<container>";
     json_str := fun _ => "<json>";
     sha1_hexdigest := hexdigest;
     time_time := 1762214400 # 1;
     cwd := "/srv/pc-alerts";
     PUBLIC_BASE_URL := base_url;
     PUSHCUT_URL := Some "https://api.pushcut.io/secret/execute";
     ESPN_S2 := Some "s2";
     ESPN_SWID := Some "{SWID}";
     owner_id_to_name := {[ "{OWNER-1}" := "moja" ]};
     truetype_loads := fun _ _ => true;
     textlength := measure;
     image_open := fun path => Ok {| bitmap_source := path; bitmap_width := 800; bitmap_height := 450 |};
     requests_get := fun url => Ok {| bitmap_source := url; bitmap_width := 350; bitmap_height := 254 |};
     image_save_fails := false;
     copyfile_fails := copy_fails;
     seen_state_write := WriteOk;
     league_connect := Ok tt;
     recent_activity := fun _ => Ok window;
     requests_post := fun _ => Ok (200, "ok") |}.


(** The process after a start on an empty disk. *)
Definition started : world := set_league true (initial_world Missing None ∅).


Definition public_url : option string := Some "https://alerts.example".

(** Everything works. *)
Definition working (window : list pyval) : env :=
  environment public_url (fun _ => false) window.

(** No public base URL is configured. *)
Definition unpublished (window : list pyval) : env :=
  environment None (fun _ => false) window.



End Sample.

(** ** The layout helpers *)

Lemma truetype_size E p s f : truetype E p s = Ok f -> font_size f = s.
Proof. unfold truetype. destruct (truetype_loads E p s); intros H; inversion H; reflexivity. Qed.

Lemma load_font_candidates_size E cs s f :
  load_font_candidates E cs s = Ok f -> font_size f = s.
Proof.
  induction cs as [|p cs IH]; simpl; [discriminate|].
  destruct (truetype E p s) eqn:Ht.
  - intros H; inversion H; subst. eapply truetype_size; eauto.
  - exact IH.
Qed.

Section FitFont.

Variables (E : env) (text : string) (path : option string).

Lemma load_font_size s f : load_font E path s = Ok f -> font_size f = s.
Proof. apply load_font_candidates_size. Qed.

Lemma fit_font_loop_unfold maxw size :
  fit_font_loop E text path maxw size =
  if size >? 8 then
    match load_font E path size with
    | Raise e => Raise e
    | Ok f => if Qle_bool (textlength E text f) maxw then Ok f
              else fit_font_loop E text path maxw (size - 1)
    end
  else load_font E path 8.
Proof.
  rewrite fit_font_loop_equation_1. unfold fit_font_loop_unfold_clause_1.
  destruct (Z_gt_dec size 8) as [Hgt|Hle]; simpl.
  - destruct (Z.gtb_spec size 8); [|lia].
    destruct (load_font E path size); reflexivity.
  - destruct (Z.gtb_spec size 8); [lia|]. reflexivity.
Qed.

Lemma fit_font_loop_char maxw n : forall size,
  Z.to_nat (size - 8) = n ->
  (forall s, 8 <= s <= Z.max 8 size -> exists f, load_font E path s = Ok f) ->
  exists f, fit_font_loop E text path maxw size = Ok f /\
    load_font E path (font_size f) = Ok f /\
    ((8 < font_size f <= size /\ (textlength E text f <= maxw)%Q /\
      forall s, font_size f < s <= size -> ~ fits_at E text path maxw s)
     \/ (font_size f = 8 /\ forall s, 8 < s <= size -> ~ fits_at E text path maxw s)).
Proof.
  induction n as [|n IH]; intros size Hn Hload; rewrite fit_font_loop_unfold.
  - destruct (Z.gtb_spec size 8); [lia|].
    destruct (Hload 8 ltac:(lia)) as [f Hf]. exists f.
    pose proof (load_font_size _ _ Hf) as Hsz.
    split; [exact Hf|]. split; [rewrite Hsz; exact Hf|].
    right. split; [exact Hsz | intros; lia].
  - destruct (Z.gtb_spec size 8); [|lia].
    destruct (Hload size ltac:(lia)) as [f Hf]. rewrite Hf.
    pose proof (load_font_size _ _ Hf) as Hsz.
    destruct (Qle_bool (textlength E text f) maxw) eqn:Hfit.
    + exists f. split; [reflexivity|]. split; [rewrite Hsz; exact Hf|].
      left. apply Qle_bool_iff in Hfit.
      repeat split; try lia; auto.
    + destruct (IH (size - 1)) as [g [Hg [Hlg Hc]]];
        [lia | intros s Hs; apply Hload; lia|].
      exists g. split; [exact Hg|]. split; [exact Hlg|].
      assert (Hno : ~ fits_at E text path maxw size).
      { intros [f' [Hf' Hle]]. rewrite Hf in Hf'. inversion Hf'; subst f'.
        apply Qle_bool_iff in Hle. congruence. }
      destruct Hc as [(Hr & Hle & Hab) | (H8 & Hab)].
      * left. repeat split; try lia; auto. intros s Hs.
        destruct (Z.eq_dec s size); [subst; auto | apply Hab; lia].
      * right. split; auto. intros s Hs.
        destruct (Z.eq_dec s size); [subst; auto | apply Hab; lia].
Qed.

(** C5: when a font loads at every size from the floor 8 up to the starting
    size, [fit_font_to_width] returns a font.  Either its size is above the
    floor and at most the starting size, the text fits at it and fits at no
    size between it and the starting size, so it is the first size from the
    top, and the largest, at which the text fits; or no size above the
    floor fits and the font has size 8. *)
Theorem fit_font_to_width_first_fit start maxw :
  (forall s, 8 <= s <= Z.max 8 start -> exists f, load_font E path s = Ok f) ->
  exists f, fit_font_to_width E text path start maxw = Ok f /\
    load_font E path (font_size f) = Ok f /\
    ((8 < font_size f <= start /\ (textlength E text f <= maxw)%Q /\
      forall s, font_size f < s <= start -> ~ fits_at E text path maxw s)
     \/ (font_size f = 8 /\ forall s, 8 < s <= start -> ~ fits_at E text path maxw s)).
Proof.
  intros Hload. unfold fit_font_to_width.
  exact (fit_font_loop_char maxw _ start eq_refl Hload).
Qed.

(** C9: when a font loads at every size from the floor up to the starting
    size, the size chosen for a region is at least the size chosen for a
    narrower region, the text, the font path and the starting size being
    the same. *)
Theorem fit_font_to_width_monotonic start (narrow wide : Q) :
  (forall s, 8 <= s <= Z.max 8 start -> exists f, load_font E path s = Ok f) ->
  (narrow <= wide)%Q ->
  exists f_narrow f_wide,
    fit_font_to_width E text path start narrow = Ok f_narrow /\
    fit_font_to_width E text path start wide = Ok f_wide /\
    font_size f_narrow <= font_size f_wide.
Proof.
  intros Hload Hle. unfold fit_font_to_width.
  destruct (fit_font_loop_char narrow _ start eq_refl Hload)
    as [f2 [Hf2 [Hl2 Hc2]]].
  destruct (fit_font_loop_char wide _ start eq_refl Hload)
    as [f1 [Hf1 [Hl1 Hc1]]].
  exists f2, f1. split; [exact Hf2|]. split; [exact Hf1|].
  destruct Hc2 as [(Hr2 & Hw2 & _) | (H8 & _)].
  - assert (Hfit : fits_at E text path wide (font_size f2)).
    { exists f2. split; [exact Hl2|]. eapply Qle_trans; eauto. }
    destruct Hc1 as [(Hr1 & _ & Hab) | (_ & Hab)].
    + destruct (Z_le_gt_dec (font_size f2) (font_size f1)) as [|Hgt]; [assumption|].
      exfalso. apply (Hab (font_size f2)); [lia | exact Hfit].
    + exfalso. apply (Hab (font_size f2)); [lia | exact Hfit].
  - destruct Hc1 as [(Hr1 & _) | (H81 & _)]; lia.
Qed.

End FitFont.

Lemma sample_fonts_load path s :
  exists f, load_font (Sample.working []) (Some path) s = Ok f.
Proof.
  unfold load_font. destruct (truthy_str (Some path)); eexists; reflexivity.
Qed.

Lemma fit_font_to_width_first_fit_witness :
  (forall s, 8 <= s <= Z.max 8 35 ->
     exists f, load_font (Sample.working []) (Some FONT_PATH_BOLD) s = Ok f) /\
  exists f,
    fit_font_to_width (Sample.working []) "Amon-Ra St. Brown Jr. III"
      (Some FONT_PATH_BOLD) 35 (2566 # 10) = Ok f /\
    load_font (Sample.working []) (Some FONT_PATH_BOLD) (font_size f) = Ok f.
Proof.
  split; [intros s _; apply sample_fonts_load|].
  destruct (fit_font_to_width_first_fit (Sample.working []) "Amon-Ra St. Brown Jr. III"
              (Some FONT_PATH_BOLD) 35 (2566 # 10)) as (f & Hf & Hl & _);
    [intros s _; apply sample_fonts_load|].
  exists f. split; assumption.
Defined.

Lemma fit_font_to_width_monotonic_witness :
  ((forall s, 8 <= s <= Z.max 8 35 ->
      exists f, load_font (Sample.working []) (Some FONT_PATH_BOLD) s = Ok f) /\
   (200 <= 2566 # 10)%Q) /\
  exists f_narrow f_wide,
    fit_font_to_width (Sample.working []) "Amon-Ra St. Brown Jr. III"
      (Some FONT_PATH_BOLD) 35 200 = Ok f_narrow /\
    fit_font_to_width (Sample.working []) "Amon-Ra St. Brown Jr. III"
      (Some FONT_PATH_BOLD) 35 (2566 # 10) = Ok f_wide /\
    font_size f_narrow <= font_size f_wide.
Proof.
  assert (Hle : (200 <= 2566 # 10)%Q) by (vm_compute; discriminate).
  split; [split; [intros s _; apply sample_fonts_load | exact Hle]|].
  apply fit_font_to_width_monotonic; [intros s _; apply sample_fonts_load | exact Hle].
Defined.




(** ** The effects of the listener *)

Ltac munfold :=
  unfold bind, ret, raise, try_except, get, modify, lift, print, io in *.

Lemma posts_app t1 t2 : posts (t1 ++ t2) = (posts t1 ++ posts t2)%list.
Proof. unfold posts. apply omap_app. Qed.

Lemma renders_app t1 t2 : renders (t1 ++ t2) = (renders t1 ++ renders t2)%list.
Proof. unfold renders. apply List.filter_app. Qed.

Lemma normalize_entry_only_actions E entry t :
  normalize_entry E entry = Some t -> in_list (action t) ONLY_ACTIONS = true.
Proof.
  unfold normalize_entry. intros H.
  repeat case_match; try discriminate;
    match goal with Hs : Some _ = Some _ |- _ => inversion Hs; subst; clear Hs end; simpl;
    match goal with Hn : negb ?b = false |- _ => apply negb_false_iff in Hn; exact Hn end.
Qed.

Lemma only_actions_not_rendered a :
  in_list a ONLY_ACTIONS = true ->
  String.eqb a "ADD" || String.eqb a "DROP" = false.
Proof.
  unfold in_list, ONLY_ACTIONS. simpl. rewrite orb_false_r.
  intros H. apply orb_true_iff in H as [H|H]; apply String.eqb_eq in H; subst; reflexivity.
Qed.

Lemma frame_trans w1 w2 w3 : frame w1 w2 -> frame w2 w3 -> frame w1 w3.
Proof. unfold frame. intuition congruence. Qed.

Lemma send_to_pushcut_effect E p w :
  exists w', send_to_pushcut E p w = (Ok tt, w') /\ frame w w' /\
    cards_dir w' = cards_dir w /\
    renders (io_trace w') = renders (io_trace w) /\
    posts (io_trace w') =
      (posts (io_trace w) ++ if truthy_str (PUSHCUT_URL E) then [p] else [])%list.
Proof.
  unfold send_to_pushcut. destruct (truthy_str (PUSHCUT_URL E)); simpl.
  - munfold. simpl. destruct (requests_post E p) as [[st tx]|e]; simpl.
    + destruct (st >=? 400)%Z; eexists; (split; [reflexivity|]); simpl;
        rewrite posts_app, renders_app; simpl; rewrite ?app_nil_r; repeat split.
    + eexists; (split; [reflexivity|]); simpl;
        rewrite posts_app, renders_app; simpl; rewrite ?app_nil_r; repeat split.
  - munfold. eexists; (split; [reflexivity|]); simpl; rewrite ?app_nil_r; repeat split.
Qed.

Ltac step := cbn -[String.eqb format_add_message card_path card_id input_obj append].

Ltac finish_effect :=
  do 2 eexists; (split; [reflexivity|]); step;
  rewrite ?posts_app, ?renders_app; step; rewrite ?app_nil_r;
  unfold frame; step; repeat split; auto.

Lemma loop_item_effect E it w :
  feed_item it ->
  exists r w', loop_item E it w = (r, w') /\ frame w w' /\
    renders (io_trace w') = renders (io_trace w) /\
    cards_dir w' = copied E w it /\
    r = (if fails E (out_add_png w) it then Raise (OSError "cannot copy file") else Ok tt) /\
    posts (io_trace w') =
      (posts (io_trace w) ++
       if fails E (out_add_png w) it then []
       else if configured E then payloads E [it] else [])%list.
Proof.
  intros [a [-> Ha]]. apply only_actions_not_rendered in Ha.
  unfold loop_item, copied, fails, configured, payloads. munfold.
  step. rewrite Ha. step.
  destruct (out_add_png w) as [latest|] eqn:Hl; step.
  - destruct (copyfile_fails E _) eqn:Hc; step.
    + finish_effect.
    + destruct (truthy_str (PUBLIC_BASE_URL E)); step.
      * match goal with |- context [send_to_pushcut E ?p ?w1] =>
          destruct (send_to_pushcut_effect E p w1) as (w' & Hs & Hf & Hcd & Hr & Hp)
        end.
        rewrite Hs. do 2 eexists. split; [reflexivity|].
        destruct Hf as (? & ? & ? & ?). step. simpl in * |-.
        rewrite Hr, Hp, Hcd, posts_app, renders_app. step. rewrite ?app_nil_r.
        unfold frame. repeat split; auto; try congruence.
      * finish_effect.
  - destruct (truthy_str (PUBLIC_BASE_URL E)); step.
    + match goal with |- context [send_to_pushcut E ?p ?w1] =>
        destruct (send_to_pushcut_effect E p w1) as (w' & Hs & Hf & Hcd & Hr & Hp)
      end.
      rewrite Hs. do 2 eexists. split; [reflexivity|].
      destruct Hf as (? & ? & ? & ?). simpl in * |-.
      rewrite Hr, Hp, Hcd. rewrite ?app_nil_r.
      unfold frame. repeat split; auto; try congruence.
    + finish_effect.
Qed.

Lemma for_each_loop_item E items : forall w,
  Forall feed_item items ->
  exists r w', for_each (loop_item E) items w = (r, w') /\ frame w w' /\
    renders (io_trace w') = renders (io_trace w) /\
    r = (if all_copied E (out_add_png w) items then Ok tt
         else Raise (OSError "cannot copy file")) /\
    posts (io_trace w') =
      (posts (io_trace w) ++
       if configured E then payloads E (before_failure E (out_add_png w) items)
       else [])%list.
Proof.
  induction items as [|it items IH]; intros w Hall.
  - exists (Ok tt), w. simpl.
    destruct (configured E); simpl; rewrite app_nil_r; repeat split.
  - inversion Hall as [|? ? Hit Hrest]; subst.
    destruct (loop_item_effect E it w Hit) as (r1 & w1 & H1 & Hf1 & Hr1 & _ & Hres1 & Hp1).
    unfold all_copied. simpl. unfold bind at 1. rewrite H1.
    destruct (fails E (out_add_png w) it) eqn:Hfail; subst r1; simpl.
    + exists (Raise (OSError "cannot copy file")), w1.
      rewrite Hp1.
      destruct (configured E); (split; [reflexivity|]); (split; [exact Hf1|]);
        (split; [exact Hr1|]); split; reflexivity.
    + destruct (IH w1 Hrest) as (r2 & w2 & H2 & Hf2 & Hr2 & Hres2 & Hp2).
      exists r2, w2. rewrite H2.
      assert (Hl : out_add_png w1 = out_add_png w) by (destruct Hf1 as (_ & _ & _ & ?); auto).
      rewrite Hl in *.
      split; [reflexivity|]. split; [eapply frame_trans; eauto|].
      split; [congruence|]. split; [exact Hres2|].
      rewrite Hp2, Hp1, <- app_assoc.
      destruct (configured E); [|reflexivity].
      unfold payloads. simpl. destruct (head (item_actions it)); reflexivity.
Qed.

Lemma world_eta w : set_seen_keys (seen_keys w) w = w.
Proof. destruct w; reflexivity. Qed.

Lemma poll_actions_effect actions : forall acc w,
  exists added,
    poll_actions actions acc w =
      (Ok (acc ++ added)%list,
       set_seen_keys (seen_keys w ∪ list_to_set (key_of <$> actions)) w)
    /\ Forall (fun it => exists a, a ∈ actions /\ it = new_item a) added
    /\ NoDup (item_key <$> added)
    /\ (forall it, it ∈ added -> item_key it ∉ seen_keys w)
    /\ seen_keys w ∪ list_to_set (key_of <$> actions)
       = seen_keys w ∪ list_to_set (item_key <$> added).
Proof.
  induction actions as [|a rest IH]; intros acc w.
  - exists []. split.
    { simpl. unfold ret. rewrite app_nil_r. f_equal.
      rewrite <- (world_eta w) at 1. f_equal. set_solver. }
    repeat split; [constructor | constructor | set_solver].
  - cbn -[make_event_key].
    destruct (bool_decide (make_event_key [a] ∈ seen_keys w)) eqn:Hin.
    + apply bool_decide_eq_true in Hin.
      destruct (IH acc w) as (added & Heq & Hall & Hnd & Hnew & Hsame).
      exists added. rewrite Heq.
      split; [f_equal; unfold set_seen_keys; f_equal; unfold key_of; set_solver|].
      split; [|split; [assumption|split; [assumption|]]].
      { eapply Forall_impl; [exact Hall|]. intros it (b & Hb & ->). exists b.
        split; [set_solver|reflexivity]. }
      simpl. rewrite <- Hsame. unfold key_of at 1. set_solver.
    + apply bool_decide_eq_false in Hin.
      unfold bind at 1, modify at 1. fold (new_item a).
      destruct (IH (acc ++ [new_item a])%list
                  (set_seen_keys ({[make_event_key [a]]} ∪ seen_keys w) w))
        as (added & Heq & Hall & Hnd & Hnew & Hsame).
      exists (new_item a :: added). rewrite Heq.
      split.
      { rewrite <- app_assoc. simpl. f_equal. unfold set_seen_keys. simpl. f_equal.
        unfold key_of. set_solver. }
      split; [|split; [|split]].
      * constructor; [exists a; split; [set_solver|reflexivity]|].
        eapply Forall_impl; [exact Hall|]. intros it (b & Hb & ->). exists b.
        split; [set_solver|reflexivity].
      * simpl. apply NoDup_cons. split; [|assumption].
        intros Hk. apply list_elem_of_fmap in Hk as (it & Hit & Hmem).
        apply (Hnew it Hmem). simpl. rewrite <- Hit. set_solver.
      * intros it Hit. apply elem_of_cons in Hit as [->|Hit]; [exact Hin|].
        intros Hs. apply (Hnew it Hit). simpl. set_solver.
      * simpl in Hsame. simpl. unfold key_of at 1. set_solver.
Qed.

Lemma normalize_actions_only_actions E activity actions a :
  normalize_actions E activity = Ok actions -> a ∈ actions ->
  in_list (action a) ONLY_ACTIONS = true.
Proof.
  unfold normalize_actions. destruct (iterate _) as [entries|e]; [|discriminate].
  intros H Ha. inversion H; subst; clear H.
  apply list_elem_of_omap in Ha as (entry & _ & Hentry).
  eapply normalize_entry_only_actions; eauto.
Qed.

Lemma poll_activities_effect E activities : forall acc w,
  exists r,
    poll_activities E activities acc w =
      (r, set_seen_keys (seen_keys w ∪ window_keys E activities) w)
    /\ forall items, r = Ok items ->
         exists added, items = (acc ++ added)%list
           /\ Forall feed_item added
           /\ NoDup (item_key <$> added)
           /\ (forall it, it ∈ added ->
                 item_key it ∉ seen_keys w /\ item_key it ∈ window_keys E activities)
           /\ seen_keys w ∪ window_keys E activities
              = seen_keys w ∪ list_to_set (item_key <$> added).
Proof.
  induction activities as [|activity rest IH]; intros acc w.
  - exists (Ok acc). split.
    { simpl. unfold ret. f_equal. rewrite <- (world_eta w) at 1.
      unfold set_seen_keys. f_equal. set_solver. }
    intros items H. inversion H; subst. exists []. rewrite app_nil_r.
    split; [reflexivity|]. split; [constructor|]. split; [constructor|].
    split; [set_solver|]. reflexivity.
  - simpl. unfold bind at 1, lift at 1.
    destruct (normalize_actions E activity) as [actions|e] eqn:Hn.
    + destruct (poll_actions_effect actions acc w)
        as (added1 & H1 & Hall1 & Hnd1 & Hnew1 & Hsame1).
      assert (Hstep : exists r,
        (new_items <- poll_actions actions acc ;; poll_activities E rest new_items) w =
          (r, set_seen_keys
                (seen_keys w ∪ (list_to_set (key_of <$> actions) ∪ window_keys E rest)) w)
        /\ forall items, r = Ok items ->
             exists added, items = (acc ++ added)%list
               /\ Forall feed_item added /\ NoDup (item_key <$> added)
               /\ (forall it, it ∈ added ->
                     item_key it ∉ seen_keys w /\
                     item_key it ∈ list_to_set (C := gset string) (key_of <$> actions)
                                     ∪ window_keys E rest)
               /\ seen_keys w ∪ (list_to_set (key_of <$> actions) ∪ window_keys E rest)
                  = seen_keys w ∪ list_to_set (item_key <$> added)).
      { unfold bind. rewrite H1.
        destruct (IH (acc ++ added1)%list
                    (set_seen_keys (seen_keys w ∪ list_to_set (key_of <$> actions)) w))
          as (r & H2 & Hr).
        exists r. rewrite H2. split.
        { f_equal. unfold set_seen_keys. simpl. f_equal. set_solver. }
        intros items Hi.
        destruct (Hr items Hi) as (added2 & -> & Hall2 & Hnd2 & Hnew2 & Hsame2).
        exists (added1 ++ added2)%list. split; [rewrite app_assoc; reflexivity|].
        split.
        { apply Forall_app. split; [|assumption].
          eapply Forall_impl; [exact Hall1|]. intros it (a & Ha & ->).
          exists a. split; [reflexivity|].
          eapply normalize_actions_only_actions; eauto. }
        split.
        { rewrite fmap_app. apply NoDup_app. split; [assumption|]. split; [|assumption].
          intros k Hk1 Hk2.
          apply list_elem_of_fmap in Hk1 as (it1 & -> & Hit1).
          apply list_elem_of_fmap in Hk2 as (it2 & Heq & Hit2).
          destruct (Hnew2 it2 Hit2) as [Hnot _]. apply Hnot. simpl.
          rewrite <- Heq.
          rewrite Forall_forall in Hall1. destruct (Hall1 it1 Hit1) as (a & Ha & ->).
          simpl. apply elem_of_union_r, elem_of_list_to_set, list_elem_of_fmap.
          exists a. split; [reflexivity|exact Ha]. }
        split.
        { intros it Hit. apply elem_of_app in Hit as [Hit|Hit].
          - split; [apply Hnew1; exact Hit|].
            rewrite Forall_forall in Hall1. destruct (Hall1 it Hit) as (a & Ha & ->).
            simpl. apply elem_of_union_l, elem_of_list_to_set, list_elem_of_fmap.
            exists a. split; [reflexivity|exact Ha].
          - destruct (Hnew2 it Hit) as [Hnot Hin]. split; [|set_solver].
            intros Hs. apply Hnot. simpl. set_solver. }
        simpl in Hsame2. rewrite fmap_app, list_to_set_app_L.
        clear -Hsame1 Hsame2. set_solver. }
      destruct actions as [|a actions']; [|exact Hstep].
      destruct Hstep as (r & Hs & Hr). exists r. split; [|exact Hr].
      rewrite <- Hs. unfold bind. simpl. unfold ret. reflexivity.
    + exists (Raise e). split.
      { f_equal. rewrite <- (world_eta w) at 1. unfold set_seen_keys. f_equal. set_solver. }
      discriminate.
Qed.

Lemma save_seen_state_effect E w :
  exists w', save_seen_state E w = (Ok tt, w') /\ quiet w w' /\
    seen_keys w' = seen_keys w /\
    (seen_state_write E = WriteOk ->
     seen_state_file w' = Json (seen_state_json E (seen_keys w))).
Proof.
  unfold save_seen_state. munfold. simpl.
  destruct (seen_state_write E); simpl; eexists; (split; [reflexivity|]);
    unfold quiet; simpl; rewrite posts_app, renders_app; simpl; rewrite ?app_nil_r;
    repeat split; auto; discriminate.
Qed.

Lemma poll_once_effect E size w :
  exists r w', poll_once E size w = (r, w') /\ quiet w w' /\
    seen_keys w' = (if league w then seen_keys w ∪ window_keys E (window E size)
                    else seen_keys w) /\
    forall items, r = Ok items ->
      Forall feed_item items /\ NoDup (item_key <$> items) /\
      (forall it, it ∈ items -> item_key it ∉ seen_keys w /\ item_key it ∈ seen_keys w') /\
      seen_keys w' = seen_keys w ∪ list_to_set (item_key <$> items) /\
      (items = [] -> seen_state_file w' = seen_state_file w) /\
      (items <> [] -> seen_state_write E = WriteOk ->
       seen_state_file w' = Json (seen_state_json E (seen_keys w'))).
Proof.
  unfold poll_once, window. unfold bind at 1, get at 1.
  destruct (league w) eqn:Hleague; simpl.
  2:{ exists (Raise AssertionError), w. unfold raise. split; [reflexivity|].
      split; [repeat split; auto|]. split; [reflexivity|]. discriminate. }
  unfold bind at 1, io at 1, modify at 1. unfold bind at 1, lift at 1.
  destruct (recent_activity E size) as [activities|e]; simpl.
  2:{ do 2 eexists. split; [reflexivity|]. unfold quiet. simpl.
      rewrite posts_app, renders_app. simpl. rewrite ?app_nil_r.
      split; [repeat split; auto|]. split; [set_solver|]. discriminate. }
  destruct (poll_activities_effect E activities [] (add_io (FeedRequest size) w))
    as (r & Hp & Hr).
  unfold bind at 1. rewrite Hp. destruct r as [items|e].
  2:{ do 2 eexists. split; [reflexivity|]. unfold quiet. simpl.
      rewrite posts_app, renders_app. simpl. rewrite ?app_nil_r.
      split; [repeat split; auto|]. split; [reflexivity|]. discriminate. }
  destruct (Hr items eq_refl) as (added & Heq & Hall & Hnd & Hnew & Hsame).
  simpl in Heq. subst added. simpl in Hsame.
  destruct items as [|it items].
  - unfold bind, ret. do 2 eexists. split; [reflexivity|]. unfold quiet. simpl.
    rewrite posts_app, renders_app. simpl. rewrite ?app_nil_r.
    split; [repeat split; auto|]. split; [reflexivity|].
    intros items H. inversion H; subst.
    split; [constructor|]. split; [constructor|]. split; [set_solver|].
    split; [exact Hsame|].
    split; [reflexivity|]. intros Hne; contradiction.
  - match goal with |- context [set_seen_keys ?s ?w0] =>
      destruct (save_seen_state_effect E (set_seen_keys s w0)) as (w' & Hs & Hq & Hk & Hfile)
    end.
    unfold bind. rewrite Hs. unfold ret. exists (Ok (it :: items)), w'.
    split; [reflexivity|].
    destruct Hq as (Hq1 & Hq2 & Hq3 & Hq4 & Hq5 & Hq6 & Hq7). simpl in *.
    rewrite posts_app in Hq6. rewrite renders_app in Hq7. simpl in *.
    rewrite app_nil_r in Hq6, Hq7.
    split; [repeat split; assumption|]. split; [exact Hk|].
    intros items' H. inversion H; subst items'.
    split; [exact Hall|]. split; [exact Hnd|]. split.
    { intros it' Hit'. destruct (Hnew it' Hit') as [Hn1 Hn2]. split; [exact Hn1|].
      rewrite Hk. set_solver. }
    split; [rewrite Hk; exact Hsame|].
    split; [discriminate|]. intros _ Hw. rewrite Hk. apply Hfile. exact Hw.
Qed.

Lemma loop_cycle_effect E w :
  exists w', loop_cycle E w = (Ok tt, w') /\
    league w' = league w /\ out_add_png w' = out_add_png w /\
    renders (io_trace w') = renders (io_trace w) /\
    seen_keys w' = (if league w then seen_keys w ∪ window_keys E (window E 50)
                    else seen_keys w) /\
    posts (io_trace w') = (posts (io_trace w) ++ delivered E w)%list /\
    Forall feed_item (cycle_items E w) /\
    NoDup (item_key <$> cycle_items E w) /\
    (forall it, it ∈ cycle_items E w ->
       item_key it ∉ seen_keys w /\ item_key it ∈ seen_keys w') /\
    (all_copied E (out_add_png w) (cycle_items E w) = false ->
     last (stdout w') = Some ("[poll error] " ++ repr_exn (OSError "cannot copy file"))).
Proof.
  unfold loop_cycle, delivered, cycle_items, try_except.
  unfold bind at 1, modify at 1. unfold bind at 1.
  destruct (poll_once_effect E 50 (set_last_poll_ts (time_time E) w))
    as (r & w1 & Hp & Hq & Hk & Hr).
  rewrite Hp. destruct Hq as (Hq1 & Hq2 & Hq3 & Hq4 & Hq5 & Hq6 & Hq7). simpl in *.
  destruct r as [items|e].
  2:{ eexists. split; [reflexivity|]. unfold print, modify. simpl.
      destruct (configured E); rewrite app_nil_r;
        repeat split; auto; try constructor; try set_solver; discriminate. }
  destruct (Hr items eq_refl) as (Hall & Hnd & Hnew & _).
  set (w2 := snd ((match items with
                   | [] => ret tt
                   | _ => modify (set_last_new_events items)
                   end) w1)).
  assert (H2 : (match items with
                | [] => ret tt
                | _ => modify (set_last_new_events items)
                end) w1 = (Ok tt, w2)) by (subst w2; destruct items; reflexivity).
  assert (Hw2 : league w2 = league w1 /\ out_add_png w2 = out_add_png w1 /\
                seen_keys w2 = seen_keys w1 /\ io_trace w2 = io_trace w1)
    by (subst w2; destruct items; repeat split).
  destruct Hw2 as (Hl2 & Ho2 & Hs2 & Ht2).
  unfold bind at 1. rewrite H2.
  destruct (for_each_loop_item E items w2 Hall) as (r3 & w3 & H3 & Hf3 & Hr3 & Hres3 & Hp3).
  rewrite H3. destruct Hf3 as (Hf1 & Hf2 & Hf3 & Hf4).
  rewrite Ho2, Hq2 in Hres3, Hp3. rewrite Ht2, Hq6 in Hp3. rewrite Ht2, Hq7 in Hr3.
  destruct (all_copied E (out_add_png w) items) eqn:Hcopied; subst r3.
  - exists w3. split; [reflexivity|].
    repeat split; try congruence.
    + destruct (Hnew it H) as [? _]; assumption.
    + destruct (Hnew it H) as [_ ?]; congruence.
  - eexists. split; [reflexivity|]. unfold print, modify. simpl.
    repeat split; try congruence.
    + destruct (Hnew it H) as [? _]; assumption.
    + destruct (Hnew it H) as [_ ?]; congruence.
    + rewrite last_snoc. reflexivity.
Qed.

Lemma before_failure_elem E latest items it :
  it ∈ before_failure E latest items -> it ∈ items.
Proof.
  induction items as [|it' items IH]; simpl; [auto|].
  destruct (fails E latest it'); [set_solver|].
  intros [->|H]%elem_of_cons; [left | right; auto].
Qed.

Lemma before_failure_NoDup E latest items :
  NoDup (item_key <$> items) -> NoDup (item_key <$> before_failure E latest items).
Proof.
  induction items as [|it items IH]; simpl; [auto|].
  intros [Hnot Hnd]%NoDup_cons. destruct (fails E latest it); [constructor|].
  simpl. apply NoDup_cons. split; [|auto].
  intros (it' & Heq & Hin)%list_elem_of_fmap. apply Hnot.
  apply list_elem_of_fmap. exists it'. split; [exact Heq|].
  eapply before_failure_elem; eauto.
Qed.

Lemma payloads_keys E items :
  Forall feed_item items -> payload_key <$> payloads E items = item_key <$> items.
Proof.
  induction 1 as [|it items (a & -> & _) _ IH]; [reflexivity|].
  unfold payloads in *. simpl. f_equal. exact IH.
Qed.

Lemma delivered_keys E w :
  Forall feed_item (cycle_items E w) ->
  NoDup (item_key <$> cycle_items E w) ->
  NoDup (payload_key <$> delivered E w) /\
  forall p, p ∈ delivered E w ->
    exists it, it ∈ cycle_items E w /\ payload_key p = item_key it.
Proof.
  intros Hall Hnd. unfold delivered.
  destruct (configured E); [|split; [constructor | set_solver]].
  assert (Hall' : Forall feed_item (before_failure E (out_add_png w) (cycle_items E w))).
  { rewrite Forall_forall in *. intros it Hit. apply Hall.
    eapply before_failure_elem; eauto. }
  pose proof (payloads_keys E _ Hall') as Hk. split.
  - rewrite Hk. apply before_failure_NoDup. exact Hnd.
  - intros p Hp.
    assert (Hpk : payload_key p ∈
              payload_key <$> payloads E (before_failure E (out_add_png w) (cycle_items E w)))
      by (apply list_elem_of_fmap; eauto).
    rewrite Hk in Hpk. apply list_elem_of_fmap in Hpk as (it & Heq & Hit).
    exists it. split; [eapply before_failure_elem; eauto | exact Heq].
Qed.

Lemma loop_effect Es : forall w,
  exists w' new, loop Es w = (Ok tt, w') /\
    league w' = league w /\ out_add_png w' = out_add_png w /\
    renders (io_trace w') = renders (io_trace w) /\
    seen_keys w ⊆ seen_keys w' /\
    posts (io_trace w') = (posts (io_trace w) ++ new)%list /\
    NoDup (payload_key <$> new) /\
    (forall p, p ∈ new -> payload_key p ∉ seen_keys w /\ payload_key p ∈ seen_keys w').
Proof.
  induction Es as [|E Es IH]; intros w.
  - exists w, []. simpl. rewrite app_nil_r.
    split; [reflexivity|]. split; [reflexivity|]. split; [reflexivity|].
    split; [reflexivity|]. split; [set_solver|]. split; [reflexivity|].
    split; [constructor | set_solver].
  - destruct (loop_cycle_effect E w)
      as (w1 & H1 & Hl1 & Ho1 & Hr1 & Hs1 & Hp1 & Hall & Hnd & Hnew & _).
    destruct (IH w1) as (w2 & new2 & H2 & Hl2 & Ho2 & Hr2 & Hs2 & Hp2 & Hnd2 & Hnew2).
    destruct (delivered_keys E w Hall Hnd) as (Hdnd & Hdk).
    assert (Hsub : seen_keys w ⊆ seen_keys w1)
      by (rewrite Hs1; destruct (league w); set_solver).
    exists w2, (delivered E w ++ new2)%list.
    simpl. unfold bind. rewrite H1, H2.
    split; [reflexivity|]. split; [congruence|]. split; [congruence|].
    split; [congruence|]. split; [set_solver|].
    split; [rewrite Hp2, Hp1, app_assoc; reflexivity|].
    split.
    + rewrite fmap_app. apply NoDup_app. split; [exact Hdnd|]. split; [|exact Hnd2].
      intros k (p1 & -> & Hp1')%list_elem_of_fmap (p2 & Heq & Hp2')%list_elem_of_fmap.
      destruct (Hdk p1 Hp1') as (it & Hit & Hk).
      destruct (Hnew it Hit) as [_ Hin1].
      destruct (Hnew2 p2 Hp2') as [Hnot _].
      apply Hnot. rewrite <- Heq, Hk. exact Hin1.
    + intros p [Hp|Hp]%elem_of_app.
      * destruct (Hdk p Hp) as (it & Hit & Hk). destruct (Hnew it Hit) as [Hn Hi].
        rewrite Hk. split; [exact Hn | set_solver].
      * destruct (Hnew2 p Hp) as [Hn Hi]. split; [set_solver | exact Hi].
Qed.

Lemma load_seen_state_effect E w :
  exists w', load_seen_state E w = (Ok tt, w') /\ quiet w w' /\
    seen_state_file w' = seen_state_file w /\
    (well_formed_ledger (seen_state_file w) = false ->
     seen_keys w' = seen_keys w \/ seen_keys w' = ∅).
Proof.
  unfold load_seen_state. unfold bind at 1, get at 1.
  destruct (seen_state_file w) as [| |v] eqn:Hf.
  - exists w. unfold ret. split; [reflexivity|]. split; [repeat split|]. auto.
  - munfold. simpl. eexists. split; [reflexivity|]. unfold quiet. simpl.
    rewrite posts_app, renders_app. simpl. rewrite ?app_nil_r. repeat split; auto.
  - munfold. simpl.
    assert (Hq : quiet w (add_io (ReadFile SEEN_STATE_FILE) w)).
    { unfold quiet. simpl. rewrite posts_app, renders_app. simpl.
      rewrite ?app_nil_r. repeat split. }
    destruct v as [| | | |l|d]; simpl;
      try (eexists; split; [reflexivity|]; split; [exact Hq|]; split; [exact Hf|]; auto).
    destruct (assoc "seen_keys" d) as [keys|] eqn:Hk; simpl.
    + destruct keys; simpl;
        (eexists; split; [reflexivity|]; split; [exact Hq|]; split; [exact Hf|]);
        simpl; auto; discriminate.
    + eexists. split; [reflexivity|]. split; [exact Hq|]. split; [exact Hf|].
      simpl. intros _. right. reflexivity.
Qed.

Lemma poll_activities_ok E activities : forall acc w items w',
  poll_activities E activities acc w = (Ok items, w') ->
  forall activity, activity ∈ activities ->
    exists actions, normalize_actions E activity = Ok actions.
Proof.
  induction activities as [|a rest IH]; intros acc w items w' H activity Hin.
  - inversion Hin.
  - simpl in H. unfold bind at 1, lift at 1 in H.
    destruct (normalize_actions E a) as [actions|e] eqn:Hn; [|discriminate].
    apply elem_of_cons in Hin as [->|Hin]; [eauto|].
    destruct actions as [|t actions'].
    + eapply IH; eauto.
    + unfold bind in H.
      destruct (poll_actions (t :: actions') acc w) as [[items1|e] w1]; [|discriminate].
      eapply IH; eauto.
Qed.

Lemma window_keys_complete E activities :
  (forall activity, activity ∈ activities ->
     exists actions, normalize_actions E activity = Ok actions) ->
  forall activity actions a,
    activity ∈ activities -> normalize_actions E activity = Ok actions -> a ∈ actions ->
    make_event_key [a] ∈ window_keys E activities.
Proof.
  induction activities as [|act rest IH]; intros Hok activity actions a Hin Hn Ha.
  - inversion Hin.
  - simpl. destruct (Hok act) as [acts Hacts]; [left|]. rewrite Hacts.
    apply elem_of_cons in Hin as [->|Hin].
    + rewrite Hn in Hacts. inversion Hacts; subst acts.
      apply elem_of_union_l, elem_of_list_to_set, list_elem_of_fmap.
      exists a. split; [reflexivity|exact Ha].
    + apply elem_of_union_r. eapply IH; eauto. intros; apply Hok. right. assumption.
Qed.

Lemma poll_once_ok E size w items w' :
  poll_once E size w = (Ok items, w') ->
  league w = true /\
  forall activity, activity ∈ window E size ->
    exists actions, normalize_actions E activity = Ok actions.
Proof.
  unfold poll_once, window. unfold bind at 1, get at 1.
  destruct (league w); simpl; [|discriminate].
  unfold bind at 1, io at 1, modify at 1. unfold bind at 1, lift at 1.
  destruct (recent_activity E size) as [activities|e]; [|discriminate].
  unfold bind at 1.
  destruct (poll_activities E activities [] _) as [[items1|e] w1] eqn:Hp; [|discriminate].
  intros _. split; [reflexivity|]. eapply poll_activities_ok; eauto.
Qed.

Lemma normalize_actions_repr E1 E2 activity :
  repr E2 = repr E1 -> normalize_actions E2 activity = normalize_actions E1 activity.
Proof.
  intros H.
  unfold normalize_actions, normalize_entry, normalize_action, get_team_name,
    get_player_name_and_id. rewrite H. reflexivity.
Qed.

Lemma window_keys_repr E1 E2 activities :
  repr E2 = repr E1 -> window_keys E2 activities = window_keys E1 activities.
Proof.
  intros H. induction activities as [|a rest IH]; simpl; [reflexivity|].
  rewrite (normalize_actions_repr E1 E2 a H), IH. reflexivity.
Qed.

Lemma on_startup_effect E w r w1 :
  on_startup E w = (r, w1) ->
  out_add_png w1 = out_add_png w /\ cards_dir w1 = cards_dir w /\
  posts (io_trace w1) = posts (io_trace w) /\
  renders (io_trace w1) = renders (io_trace w) /\
  (r = Ok tt ->
   league w1 = true /\ last_new_events w1 = [] /\
   window_keys E (window E 50) ⊆ seen_keys w1 /\
   forall activity, activity ∈ window E 50 ->
     exists actions, normalize_actions E activity = Ok actions).
Proof.
  unfold on_startup. unfold bind at 1.
  destruct (load_seen_state_effect E w) as (wl & Hl & Hq & _).
  rewrite Hl. destruct Hq as (Hq1 & Hq2 & Hq3 & Hq4 & Hq5 & Hq6 & Hq7).
  unfold bind at 1, init_league.
  destruct (negb (truthy_str (ESPN_S2 E)) || negb (truthy_str (ESPN_SWID E))).
  { unfold raise. intros H. inversion H; subst.
    split; [assumption|]. split; [assumption|]. split; [assumption|].
    split; [assumption|]. discriminate. }
  unfold lift at 1. destruct (league_connect E) as [[]|e].
  2:{ intros H. inversion H; subst.
      split; [assumption|]. split; [assumption|]. split; [assumption|].
      split; [assumption|]. discriminate. }
  unfold bind at 1, modify at 1. unfold bind at 1.
  destruct (poll_once_effect E 50 (set_league true wl)) as (rp & wp & Hp & Hqp & Hk & Hr).
  rewrite Hp. destruct Hqp as (Hp1 & Hp2 & Hp3 & Hp4 & Hp5 & Hp6 & Hp7). simpl in *.
  destruct rp as [items|e].
  2:{ intros H. inversion H; subst.
      split; [congruence|]. split; [congruence|]. split; [congruence|].
      split; [congruence|]. discriminate. }
  munfold. simpl. intros H. inversion H; subst. simpl.
  destruct (poll_once_ok _ _ _ _ _ Hp) as [_ Hok].
  split; [congruence|]. split; [congruence|]. split; [congruence|]. split; [congruence|].
  intros _. split; [congruence|]. split; [reflexivity|]. split; [rewrite Hk; set_solver|].
  exact Hok.
Qed.

Lemma loop_cycle_idle E w :
  cycle_items E w = [] ->
  cards_dir (snd (loop_cycle E w)) = cards_dir w /\
  posts (io_trace (snd (loop_cycle E w))) = posts (io_trace w).
Proof.
  intros Hidle.
  destruct (loop_cycle_effect E w) as (w' & H & _ & _ & _ & _ & Hp & _).
  rewrite H. simpl. split.
  - revert H. unfold loop_cycle, try_except. unfold bind at 1, modify at 1. unfold bind at 1.
    unfold cycle_items in Hidle.
    destruct (poll_once_effect E 50 (set_last_poll_ts (time_time E) w))
      as (r & w1 & Hpo & Hq & _).
    rewrite Hpo in *. destruct Hq as (_ & _ & Hc & _). simpl in Hc.
    destruct r as [items|e].
    + subst items. munfold. simpl. intros H. inversion H; subst. exact Hc.
    + munfold. simpl. intros H. inversion H; subst. exact Hc.
  - rewrite Hp. unfold delivered. rewrite Hidle. simpl.
    destruct (configured E); apply app_nil_r.
Qed.

(** ** The card compositor *)







(** ** The ledger, the cycle and the start *)

Lemma poll_cycles_new Es : forall w,
  NoDup (item_key <$> poll_cycles Es w) /\
  forall it, it ∈ poll_cycles Es w -> item_key it ∉ seen_keys w.
Proof.
  induction Es as [|E Es IH]; intros w; simpl.
  - split; [constructor | set_solver].
  - destruct (poll_once_effect E 50 w) as (r & w' & Hp & _ & Hk & Hr).
    rewrite Hp. destruct (IH w') as [Hnd' Hnew'].
    assert (Hsub : seen_keys w ⊆ seen_keys w')
      by (rewrite Hk; destruct (league w); set_solver).
    destruct r as [items|e]; simpl.
    + destruct (Hr items eq_refl) as (_ & Hnd & Hnew & _). split.
      * rewrite fmap_app. apply NoDup_app. split; [exact Hnd|]. split; [|exact Hnd'].
        intros k (it1 & -> & H1)%list_elem_of_fmap (it2 & Heq & H2)%list_elem_of_fmap.
        apply (Hnew' it2 H2). rewrite <- Heq. apply Hnew. exact H1.
      * intros it [H|H]%elem_of_app; [apply Hnew; exact H|].
        intros Hs. apply (Hnew' it H). set_solver.
    + split; [exact Hnd'|]. intros it H Hs. apply (Hnew' it H). set_solver.
Qed.

(** C3: transactions that agree on team, action, player name and player id
    have the same key; over any sequence of polls the keys reported as new
    are pairwise distinct and none was seen before; a poll reports no item
    for a key that is in the seen set, and leaves the key there; and over
    any number of cycles of the loop no two deliveries are for the same
    key. *)
Theorem dedup_key_reported_once :
  (forall t1 t2 : transaction,
     teamName t1 = teamName t2 -> action t1 = action t2 ->
     playerName t1 = playerName t2 -> playerId t1 = playerId t2 ->
     make_event_key [t1] = make_event_key [t2]) /\
  (forall Es w,
     NoDup (item_key <$> poll_cycles Es w) /\
     forall it, it ∈ poll_cycles Es w -> item_key it ∉ seen_keys w) /\
  (forall E size w items w' k,
     k ∈ seen_keys w -> poll_once E size w = (Ok items, w') ->
     k ∉ item_key <$> items /\ k ∈ seen_keys w') /\
  (forall Es w, exists new,
     posts (io_trace (snd (loop Es w))) = (posts (io_trace w) ++ new)%list /\
     NoDup (payload_key <$> new)).
Proof.
  split; [|split; [|split]].
  - intros t1 t2 H1 H2 H3 H4. unfold make_event_key, event_key_part. simpl.
    rewrite H1, H2, H3, H4. reflexivity.
  - apply poll_cycles_new.
  - intros E size w items w' k Hk Hp.
    destruct (poll_once_effect E size w) as (r & w1 & Hp1 & _ & Hs & Hr).
    rewrite Hp in Hp1. inversion Hp1; subst r w1.
    destruct (Hr items eq_refl) as (_ & _ & Hnew & _). split.
    + intros (it & -> & Hit)%list_elem_of_fmap. destruct (Hnew it Hit) as [Hn _]. auto.
    + rewrite Hs. destruct (league w); set_solver.
  - intros Es w. destruct (loop_effect Es w) as (w' & new & H & _ & _ & _ & _ & Hp & Hnd & _).
    rewrite H. exists new. split; assumption.
Qed.

Lemma dedup_key_reported_once_witness :
  let t1 :=
    {| teamName := "moja"; ownerId := Some "{OWNER-1}"; action := "ADDED";
       playerName := "Bucky Irving"; playerId := Some 2577417;
       teamLogoUrl := None; playerImageUrl := None |} in
  let t2 :=
    {| teamName := "moja"; ownerId := None; action := "ADDED";
       playerName := "Bucky Irving"; playerId := Some 2577417;
       teamLogoUrl := Some "https://g.espncdn.com/lm-static/logo.png";
       playerImageUrl := None |} in
  let E := Sample.working [Sample.swap] in
  make_event_key [t1] = make_event_key [t2] /\
  ("moja|ADDED|Bucky Irving|2577417" ∈ seen_keys (snd (poll_once E 50 Sample.started)) /\
   "moja|ADDED|Bucky Irving|2577417"
     ∉ item_key <$> poll_cycles [E] (snd (poll_once E 50 Sample.started))).
Proof.
  intros t1 t2 E.
  destruct dedup_key_reported_once as (Hkey & _ & Hskip & _).
  split; [apply Hkey; reflexivity|].
  assert (Hin : "moja|ADDED|Bucky Irving|2577417"
                  ∈ seen_keys (snd (poll_once E 50 Sample.started)))
    by (eapply bool_decide_unpack; vm_compute; exact I).
  split; [exact Hin|].
  assert (Hp : exists items w',
            poll_once E 50 (snd (poll_once E 50 Sample.started)) = (Ok items, w')
            /\ poll_cycles [E] (snd (poll_once E 50 Sample.started)) = items).
  { do 2 eexists. split; vm_compute; reflexivity. }
  destruct Hp as (items & w' & Hp & ->).
  exact (proj1 (Hskip E 50 _ items w' _ Hin Hp)).
Defined.

Lemma feed_item_action it :
  feed_item it ->
  exists a, item_actions it = [a] /\ item_key it = make_event_key [a] /\
            (action a = "ADDED" \/ action a = "DROPPED").
Proof.
  intros (a & -> & Ha). exists a. split; [reflexivity|]. split; [reflexivity|].
  unfold in_list, ONLY_ACTIONS in Ha. simpl in Ha. rewrite orb_false_r in Ha.
  apply orb_true_iff in Ha as [Ha|Ha]; apply String.eqb_eq in Ha; auto.
Qed.

(** C1: in a cycle the compositor is never called.  Every item that the
    poll reports carries the action ADDED or DROPPED, the loop renders for
    ADD and DROP only, so a cycle does no asset input or output and leaves
    [out_add.png] as it was: what is copied under the card identifier and
    what the payload links to is the file of an earlier render, if any. *)
Theorem cycle_renders_no_card E w :
  renders (io_trace (snd (loop_cycle E w))) = renders (io_trace w) /\
  out_add_png (snd (loop_cycle E w)) = out_add_png w /\
  (forall it, it ∈ cycle_items E w ->
     exists a, item_actions it = [a] /\ item_key it = make_event_key [a] /\
               (action a = "ADDED" \/ action a = "DROPPED")) /\
  (forall p, p ∈ delivered E w ->
     exists it, it ∈ cycle_items E w /\ p_rawActions p = item_actions it /\
                p_imageUrl p = Some (img_url E it)).
Proof.
  destruct (loop_cycle_effect E w) as (w' & H & _ & Ho & Hr & _ & _ & Hall & _).
  rewrite H. simpl. split; [exact Hr|]. split; [exact Ho|]. split.
  - intros it Hit. apply feed_item_action. rewrite Forall_forall in Hall. auto.
  - intros p Hp. unfold delivered in Hp. destruct (configured E); [|inversion Hp].
    unfold payloads in Hp. apply list_elem_of_omap in Hp as (it & Hit & Hp).
    exists it. split; [eapply before_failure_elem; eauto|].
    destruct (head (item_actions it)); [|discriminate].
    inversion Hp; subst p. split; reflexivity.
Qed.

(** The cycle of C1 on a window with one add: the payload links to a card
    that no step of the cycle has written. *)
Example cycle_on_one_add :
  let w' := snd (loop_cycle (Sample.working [Sample.add_only]) Sample.started) in
  item_key <$> cycle_items (Sample.working [Sample.add_only]) Sample.started
    = ["moja|ADDED|Bucky Irving|2577417"] /\
  renders (io_trace w') = [] /\ out_add_png w' = None /\
  cards_dir w' !! "6d6f6a617c41" = None /\
  p_imageUrl <$> posts (io_trace w')
    = [Some "https://alerts.example/cards/6d6f6a617c41.png?ts=1762214400"].
Proof. vm_compute. repeat split. Qed.






(** C4, counterexample: one new transaction and no public base URL; the
    two cycles attempt no delivery at all. *)
Lemma two_cycles_without_public_url :
  length (cycle_items (Sample.unpublished [Sample.add_only]) Sample.started) = 1%nat /\
  posts (io_trace (snd (loop [Sample.unpublished [Sample.add_only];
                              Sample.unpublished [Sample.add_only]] Sample.started))) = [] /\
  ~ twice_yields_one (Sample.unpublished [Sample.add_only]) Sample.started.
Proof.
  split; [vm_compute; reflexivity|]. split; [vm_compute; reflexivity|].
  unfold twice_yields_one. intros [_ H]. vm_compute in H. discriminate.
Qed.

Lemma cycle_items_window E w it :
  it ∈ cycle_items E w ->
  league w = true /\ item_key it ∉ seen_keys w /\ item_key it ∈ window_keys E (window E 50).
Proof.
  unfold cycle_items.
  destruct (poll_once_effect E 50 (set_last_poll_ts (time_time E) w))
    as (r & w1 & Hp & _ & Hk & Hr).
  rewrite Hp. destruct r as [items|e]; [|intros H; inversion H].
  intros Hit. destruct (Hr items eq_refl) as (_ & _ & Hnew & _).
  destruct (Hnew it Hit) as [Hn Hi]. simpl in *.
  rewrite Hk in Hi. destruct (league w); [|contradiction].
  split; [reflexivity|]. split; [exact Hn|]. set_solver.
Qed.

Lemma payloads_length E items :
  Forall feed_item items -> length (payloads E items) = length items.
Proof.
  intros H. rewrite <- (length_fmap payload_key), (payloads_keys E items H).
  apply length_fmap.
Qed.

Lemma before_failure_length E latest items :
  (length (before_failure E latest items) <= length items)%nat.
Proof.
  induction items as [|it items IH]; simpl; [lia|].
  destruct (fails E latest it); simpl; lia.
Qed.

Lemma before_failure_copied E latest items :
  all_copied E latest items = true -> before_failure E latest items = items.
Proof.
  unfold all_copied. induction items as [|it items IH]; simpl; [reflexivity|].
  destruct (fails E latest it); simpl; [discriminate|]. intros H. rewrite IH; auto.
Qed.

(** C4, as amended: on the same window the second cycle finds every key in
    the seen set and reports no item, so it renders nothing, copies no
    card and attempts no delivery; the deliveries of the two cycles are
    those of the first, at most one for each item it reported as new:
    exactly one when the URLs are configured and no copy fails, none when
    they are not configured. *)
Theorem second_cycle_emits_nothing E1 E2 w :
  repr E2 = repr E1 -> recent_activity E2 50 = recent_activity E1 50 ->
  let w1 := snd (loop_cycle E1 w) in
  let w2 := snd (loop_cycle E2 w1) in
  cycle_items E2 w1 = [] /\
  posts (io_trace w2) = posts (io_trace w1) /\
  renders (io_trace w2) = renders (io_trace w1) /\
  cards_dir w2 = cards_dir w1 /\
  seen_keys w2 = seen_keys w1 /\
  posts (io_trace w2) = (posts (io_trace w) ++ delivered E1 w)%list /\
  (length (delivered E1 w) <= length (cycle_items E1 w))%nat /\
  (configured E1 = true -> all_copied E1 (out_add_png w) (cycle_items E1 w) = true ->
   length (delivered E1 w) = length (cycle_items E1 w)) /\
  (configured E1 = false -> delivered E1 w = []).
Proof.
  intros Hrepr Hfeed w1 w2.
  destruct (loop_cycle_effect E1 w) as (w1' & H1 & Hl1 & _ & _ & Hs1 & Hp1 & Hall1 & _).
  assert (Hw1 : w1 = w1') by (subst w1; rewrite H1; reflexivity).
  assert (Hwin : window_keys E2 (window E2 50) = window_keys E1 (window E1 50)).
  { unfold window. rewrite Hfeed. apply window_keys_repr. exact Hrepr. }
  assert (Hidle : cycle_items E2 w1 = []).
  { destruct (cycle_items E2 w1) as [|it items] eqn:Hitems; [reflexivity|]. exfalso.
    destruct (cycle_items_window E2 w1 it) as (Hl & Hn & Hi); [rewrite Hitems; left|].
    apply Hn. rewrite Hw1, Hs1. rewrite Hw1, Hl1 in Hl. rewrite Hl.
    rewrite Hwin in Hi. set_solver. }
  destruct (loop_cycle_effect E2 w1) as (w2' & H2 & Hl2 & _ & Hr2 & Hs2 & _).
  assert (Hw2 : w2 = w2') by (subst w2; rewrite H2; reflexivity).
  destruct (loop_cycle_idle E2 w1 Hidle) as [Hc Hp2]. fold w2 in Hc, Hp2.
  split; [exact Hidle|]. split; [exact Hp2|]. split; [rewrite Hw2; exact Hr2|].
  split; [exact Hc|]. split.
  { rewrite Hw2, Hs2, Hwin. rewrite Hw1 at 1 2. rewrite Hl1, Hs1.
    destruct (league w); set_solver. }
  split; [rewrite Hp2, Hw1; exact Hp1|].
  assert (Hall' : Forall feed_item (before_failure E1 (out_add_png w) (cycle_items E1 w))).
  { rewrite Forall_forall in *. intros it Hit. apply Hall1.
    eapply before_failure_elem; eauto. }
  unfold delivered. split; [|split].
  - destruct (configured E1); simpl; [|lia].
    rewrite payloads_length by exact Hall'. apply before_failure_length.
  - intros -> Hcopied. rewrite before_failure_copied by exact Hcopied.
    apply payloads_length. exact Hall1.
  - intros ->. reflexivity.
Qed.

Lemma second_cycle_emits_nothing_witness :
  let E := Sample.working [Sample.swap] in
  let w1 := snd (loop_cycle E Sample.started) in
  let w2 := snd (loop_cycle E w1) in
  (repr E = repr E /\ recent_activity E 50 = recent_activity E 50) /\
  cycle_items E w1 = [] /\
  posts (io_trace w2) = posts (io_trace w1) /\
  length (delivered E Sample.started) = 2%nat.
Proof.
  intros E w1 w2. split; [split; reflexivity|].
  destruct (second_cycle_emits_nothing E E Sample.started eq_refl eq_refl)
    as (Hidle & Hposts & _ & _ & _ & _ & _ & Hall & _).
  split; [exact Hidle|]. split; [exact Hposts|].
  rewrite Hall; vm_compute; reflexivity.
Defined.

(** C10: a start that succeeds attempts no delivery, renders and copies no
    card and leaves [last_new_events] empty; the key of every transaction
    of the window it polled is in the seen set; and whatever cycles
    follow, they render nothing and none of their deliveries is for the
    key of a transaction of that window. *)
Theorem warm_up_suppresses_history E0 w0 w1 :
  on_startup E0 w0 = (Ok tt, w1) ->
  (posts (io_trace w1) = posts (io_trace w0) /\
   renders (io_trace w1) = renders (io_trace w0) /\
   cards_dir w1 = cards_dir w0 /\ out_add_png w1 = out_add_png w0 /\
   last_new_events w1 = []) /\
  (forall activity actions a,
     activity ∈ window E0 50 -> normalize_actions E0 activity = Ok actions ->
     a ∈ actions -> make_event_key [a] ∈ seen_keys w1) /\
  (forall Es,
     renders (io_trace (snd (loop Es w1))) = renders (io_trace w0) /\
     exists new,
       posts (io_trace (snd (loop Es w1))) = (posts (io_trace w0) ++ new)%list /\
       forall p activity actions a,
         p ∈ new -> activity ∈ window E0 50 ->
         normalize_actions E0 activity = Ok actions -> a ∈ actions ->
         payload_key p <> make_event_key [a]).
Proof.
  intros Hstart.
  destruct (on_startup_effect E0 w0 _ _ Hstart) as (Ho & Hc & Hp & Hr & Hok).
  destruct (Hok eq_refl) as (_ & Hlast & Hkeys & Hnorm).
  assert (Hseen : forall activity actions a,
            activity ∈ window E0 50 -> normalize_actions E0 activity = Ok actions ->
            a ∈ actions -> make_event_key [a] ∈ seen_keys w1).
  { intros activity actions a Hin Hn Ha. apply Hkeys.
    eapply window_keys_complete; eauto. }
  split; [repeat split; assumption|]. split; [exact Hseen|].
  intros Es. destruct (loop_effect Es w1) as (w2 & new & H2 & _ & _ & Hr2 & _ & Hp2 & _ & Hnew).
  rewrite H2. simpl. split; [congruence|].
  exists new. split; [congruence|].
  intros p activity actions a Hpn Hin Hn Ha Heq.
  destruct (Hnew p Hpn) as [Hnot _]. apply Hnot. rewrite Heq. eauto.
Qed.

Lemma warm_up_suppresses_history_witness :
  let E := Sample.working [Sample.swap] in
  let w0 := initial_world Missing None ∅ in
  let w1 := snd (on_startup E w0) in
  on_startup E w0 = (Ok tt, w1) /\
  posts (io_trace w1) = posts (io_trace w0) /\
  renders (io_trace (snd (loop [E; E] w1))) = renders (io_trace w0).
Proof.
  intros E w0 w1.
  assert (Hstart : on_startup E w0 = (Ok tt, w1)) by (vm_compute; reflexivity).
  split; [exact Hstart|].
  destruct (warm_up_suppresses_history E w0 w1 Hstart) as ((Hp & _) & _ & Hlater).
  split; [exact Hp|].
  destruct (Hlater [E; E]) as (Hrenders & _). exact Hrenders.
Defined.


